(** * TypeJuice: extraction of declaration metadata and its markdown rendering

    A shallow embedding of [packages/typejuice/index.js].  The syntax tree
    handed over by the TypeScript parser is modelled by inductive types that
    keep the properties the extractor reads ([kind], [statements], [members],
    [type], [types], [typeName], [literal], [left], [right], [escapedText],
    [questionToken], [pos], [end]).  JavaScript strings are Rocq strings, one
    [ascii] per code unit (source texts over code units below 256); arrays
    are lists, [push] appends at the end; [undefined] is [None]; a thrown
    exception is the [Throw] case of the [result] type. *)

From Stdlib Require Import Ascii.
From stdpp Require Import gmap strings list.

Set Warnings "-register-all".

(** ** JavaScript strings *)

Module JS.

(** A string is truthy when it is not empty. *)
Definition truthy (s : string) : bool :=
  match s with
  | EmptyString => false
  | String _ _ => true
  end.

(** [\s] of a regular expression and the characters removed by [trim]:
    TAB, LF, VT, FF, CR, SPACE and NBSP. *)
Definition isWhiteSpace (c : ascii) : bool :=
  (Ascii.eqb c "009" || Ascii.eqb c "010" || Ascii.eqb c "011" ||
   Ascii.eqb c "012" || Ascii.eqb c "013" || Ascii.eqb c " " ||
   Ascii.eqb c "160")%char.

(** The characters [.] does not match. *)
Definition isLineTerminator (c : ascii) : bool :=
  (Ascii.eqb c "010" || Ascii.eqb c "013")%char.

Fixpoint all (p : ascii -> bool) (s : string) : bool :=
  match s with
  | EmptyString => true
  | String c s' => p c && all p s'
  end.

Fixpoint trimStart (s : string) : string :=
  match s with
  | EmptyString => EmptyString
  | String c s' => if isWhiteSpace c then trimStart s' else s
  end.

Fixpoint trimEnd (s : string) : string :=
  match s with
  | EmptyString => EmptyString
  | String c s' =>
      match trimEnd s' with
      | EmptyString => if isWhiteSpace c then EmptyString else String c EmptyString
      | t => String c t
      end
  end.

(** [s.trim()] *)
Definition trim (s : string) : string := trimEnd (trimStart s).

(** [s.slice(pos, end)] for [0 <= pos] and [0 <= end]; empty when
    [end <= pos], cut at the end of [s]. *)
Definition slice (s : string) (pos end_ : nat) : string :=
  String.substring pos (end_ - pos) s.

(** [s.split(/\r?\n/)]: the text is cut at every LF, and a CR standing
    directly before that LF belongs to the separator. *)
Fixpoint splitLines (s : string) : list string :=
  match s with
  | EmptyString => [EmptyString]
  | String c s' =>
      if Ascii.eqb c "010" then EmptyString :: splitLines s'
      else
        match s' with
        | String c' s'' =>
            if Ascii.eqb c "013" && Ascii.eqb c' "010"
            then EmptyString :: splitLines s''
            else
              match splitLines s' with
              | l :: ls => String c l :: ls
              | [] => [String c EmptyString]
              end
        | EmptyString => [String c EmptyString]
        end
  end.

(** [a.join(sep)] on an array of strings. *)
Definition Array_join (sep : string) (a : list string) : string :=
  String.concat sep a.

(** [line.match(/^\s*\/\/(.+?)$/)]: the capture group, when the line
    matches.  The white space before the marker is matched greedily, and
    no shorter match of it can be followed by a slash; the group then has
    to reach the end of the line over characters that [.] accepts, and
    holds at least one. *)
Fixpoint commentMatch (line : string) : option string :=
  match line with
  | String c rest =>
      if isWhiteSpace c then commentMatch rest
      else
        match line with
        | String "/" (String "/" text) =>
            if truthy text && all (fun c => negb (isLineTerminator c)) text
            then Some text else None
        | _ => None
        end
  | EmptyString => None
  end.

(** [line.match(/^\s*$/)] *)
Definition blankMatch (line : string) : bool := all isWhiteSpace line.

End JS.

(** ** Exceptions *)

Inductive exn :=
  | Error (message : string)
  | TypeError (message : string).

Inductive result (A : Type) :=
  | Ok (a : A)
  | Throw (e : exn).
Arguments Ok {A} a.
Arguments Throw {A} e.

#[global] Instance result_ret : MRet result := fun A a => Ok a.
#[global] Instance result_bind : MBind result := fun A B f m =>
  match m with
  | Ok a => f a
  | Throw e => Throw e
  end.

(** [for (const x of items) body], where the body updates the variables
    [S] of the loop and may throw. *)
Definition forOf {A S : Type} (body : A -> S -> result S) :=
  fix go (items : list A) (s : S) {struct items} : result S :=
    match items with
    | [] => Ok s
    | x :: rest =>
        match body x s with
        | Ok s' => go rest s'
        | Throw e => Throw e
        end
    end.

(** ** The syntax tree, as far as the extractor reads it *)

(** An entity name: an identifier, or a qualified name whose [right] is an
    identifier and whose [left] is again an entity name. *)
Inductive EntityName :=
  | Identifier (escapedText : string)
  | QualifiedName (left_ : EntityName) (right_escapedText : string).

(** A type node, by the properties the extractor tests: [types] is there on
    a union (or intersection), [typeName] on a type reference, [literal]
    (given by the name of its kind) on a literal type. [ty_kind] is
    [ts.SyntaxKind[type.kind]]. *)
Inductive TypeNode := mkTypeNode {
  ty_kind : string;
  ty_types : option (list TypeNode);
  ty_typeName : option EntityName;
  ty_literal : option string
}.

(** A property signature, a property declaration or a parameter. [m_name]
    is [node.name.escapedText]: the text of an identifier, and [undefined]
    on a name that is a string or numeric literal, a computed name or a
    binding pattern. The type annotation may be missing. *)
Record MemberNode := mkMemberNode {
  m_name : option string;
  m_questionToken : bool;
  m_type : option TypeNode;
  m_pos : nat;
  m_end : nat
}.

Record ConstructorNode := mkConstructorNode {
  c_parameters : list MemberNode;
  c_pos : nat;
  c_end : nat
}.

Inductive InterfaceMember :=
  | PropertySignature (member : MemberNode)
  | OtherSignature (kind : string).

Inductive ClassMember :=
  | Constructor (member : ConstructorNode)
  | PropertyDeclaration (member : MemberNode)
  | OtherMember (kind : string).

Record InterfaceNode := mkInterfaceNode {
  i_name : string;
  i_members : list InterfaceMember
}.

(** [cl_name] is the text of [classNode.name], which a default export may
    leave out. *)
Record ClassNode := mkClassNode {
  cl_name : option string;
  cl_members : list ClassMember
}.

(** [f_name] is the text of [functionNode.name], which a default export
    may leave out. *)
Record FunctionNode := mkFunctionNode {
  f_name : option string;
  f_parameters : list MemberNode;
  f_type : option TypeNode
}.

(** A statement of a source file or of a module block, or such a container
    itself.  The body of a module declaration is a module block, for a
    dotted namespace again a module declaration, and is missing on a
    declaration without braces. *)
Inductive Node :=
  | SourceFile (statements : list Node)
  | ModuleBlock (statements : list Node)
  | InterfaceDeclaration (iNode : InterfaceNode)
  | ClassDeclaration (classNode : ClassNode)
  | FunctionDeclaration (functionNode : FunctionNode)
  | ModuleDeclaration (name : string) (body : option Node)
  | OtherNode (kind : string).

(** ** The extracted metadata *)

(** An element of a [types] array: a name, or an array of names. A name
    missing from [keywordMap] is [undefined]. *)
Inductive TypeEntry :=
  | Name (name : option string)
  | Names (names : list (option string)).

Record FieldInfo := mkFieldInfo {
  optional : bool;
  types : list TypeEntry;
  comments : list string
}.

Definition FieldMeta : Type := option string * FieldInfo.

Record ConstructorMeta := mkConstructorMeta {
  ctor_params : list FieldMeta;
  ctor_comments : list string
}.

Inductive Metadata :=
  | InterfaceMeta (name : string) (props : list FieldMeta)
  | ClassMeta (name : string) (constructorMeta : option ConstructorMeta)
      (props : list FieldMeta)
  | FunctionMeta (name : string) (params : list FieldMeta)
      (returnTypes : list TypeEntry).

Definition StructureEntry : Type := string * Metadata.

(** The properties of a metadata object; [None] where the object has no
    such property (or, for [constructorMeta], holds [null]). *)
Definition meta_name (meta : Metadata) : string :=
  match meta with
  | InterfaceMeta name _ | ClassMeta name _ _ | FunctionMeta name _ _ => name
  end.

Definition meta_constructorMeta (meta : Metadata) : option ConstructorMeta :=
  match meta with
  | ClassMeta _ constructorMeta _ => constructorMeta
  | _ => None
  end.

Definition meta_params (meta : Metadata) : option (list FieldMeta) :=
  match meta with
  | FunctionMeta _ params _ => Some params
  | _ => None
  end.

Definition meta_props (meta : Metadata) : option (list FieldMeta) :=
  match meta with
  | InterfaceMeta _ props | ClassMeta _ _ props => Some props
  | FunctionMeta _ _ _ => None
  end.

(** ** The extractor *)

Definition keywordMap : gmap string string :=
  list_to_map [
    ("StringKeyword", "string");
    ("NumberKeyword", "number");
    ("BooleanKeyword", "boolean");
    ("NullKeyword", "null");
    ("UndefinedKeyword", "undefined");
    ("ObjectKeyword", "object")
  ].

(** [extractTypeName] on an identifier: its text when that is truthy;
    otherwise [result] stays empty, an identifier having no [left]. *)
Definition extractTypeName_Identifier (escapedText : string) : string :=
  if JS.truthy escapedText then escapedText else "".

Fixpoint extractTypeName (typeName : EntityName) : string :=
  match typeName with
  | Identifier escapedText => extractTypeName_Identifier escapedText
  | QualifiedName left_ right_escapedText =>
      let result := "" in
      let result :=
        match left_ with
        | QualifiedName left_left left_right_escapedText =>
            let result := result +:+ extractTypeName left_left in
            result +:+ "." +:+ extractTypeName_Identifier left_right_escapedText
        | Identifier left_escapedText =>
            let result := if JS.truthy result then result +:+ "." else result in
            result +:+ left_escapedText
        end in
      let result := if JS.truthy result then result +:+ "." else result in
      result +:+ right_escapedText
  end.

(** The name pushed for one type node: through [typeName], else through
    [literal.kind], else through its own kind. *)
Definition resolveType (type : TypeNode) : option string :=
  match ty_typeName type with
  | Some typeName => Some (extractTypeName typeName)
  | None =>
      match ty_literal type with
      | Some literal_kind => keywordMap !! literal_kind
      | None => keywordMap !! ty_kind type
      end
  end.

(** [extractNodeTypes(node)] reads [node.type] only, which is its argument
    here; on a node without type annotation the first property access
    throws. *)
Definition extractNodeTypes (node_type : option TypeNode) : result (list TypeEntry) :=
  match node_type with
  | None => Throw (TypeError "Cannot read properties of undefined (reading 'types')")
  | Some type =>
      match ty_types type with
      | Some types =>
          Ok (foldl (fun nodeTypes type => nodeTypes ++ [Name (resolveType type)]) [] types)
      | None => Ok ([] ++ [Names [resolveType type]])
      end
  end.

(** [node.name.escapedText] on a class or a function: without [name] the
    property access throws. *)
Definition name_escapedText (name : option string) : result string :=
  match name with
  | Some escapedText => Ok escapedText
  | None =>
      Throw (TypeError "Cannot read properties of undefined (reading 'escapedText')")
  end.

Definition LF : string := String "010" EmptyString.

(** The loop of [extractNodeComments] over the lines that are left, with
    its three variables; the result is the [comments] array when the loop
    ends or breaks. *)
Fixpoint scanLines (lines : list string) (comments : list string)
    (seenComment lineBreak : bool) : list string :=
  match lines with
  | [] => comments
  | line :: rest =>
      match JS.commentMatch line with
      | Some text =>
          let comments :=
            if negb lineBreak && (0 <? length comments)
            then alter (fun last => last +:+ " " +:+ JS.trim text)
                       (length comments - 1) comments
            else comments ++ [JS.trim text] in
          scanLines rest comments true false
      | None =>
          if JS.blankMatch line then scanLines rest comments seenComment true
          else if negb lineBreak && seenComment then comments
          else scanLines rest comments seenComment lineBreak
      end
  end.

Section Extractor.

(** [wrap(text, { width })] of the word-wrap package, and the text of the
    source file. *)
Variable wrap : string -> nat -> string.
Variable kSourceBody : string.

(** [extractNodeComments(node, comments)] reads [node.pos] and [node.end];
    it fills the array it is given and returns the wrapped text: the two
    components of the result. *)
Definition extractNodeComments (pos end_ : nat) (comments : list string)
    : list string * string :=
  let comments :=
    scanLines (JS.splitLines (JS.slice kSourceBody pos end_)) comments false false in
  (comments, wrap (JS.Array_join (LF +:+ LF) comments) 80).

Definition extractNodeMeta (node : MemberNode) : result FieldMeta :=
  let comments := [] in
  types ← extractNodeTypes (m_type node);
  let '(comments, _) := extractNodeComments (m_pos node) (m_end node) comments in
  mret (m_name node,
        {| optional := m_questionToken node; types := types; comments := comments |}).

Definition extractInterface (iNode : InterfaceNode) : result Metadata :=
  interfaceProps ←
    forOf (fun member interfaceProps =>
      match member with
      | PropertySignature member =>
          meta ← extractNodeMeta member; mret (interfaceProps ++ [meta])
      | OtherSignature _ => mret interfaceProps
      end) (i_members iNode) [];
  mret (InterfaceMeta (i_name iNode) interfaceProps).

Definition extractConstructor (member : ConstructorNode) : result ConstructorMeta :=
  let comments := [] in
  params ←
    forOf (fun param params =>
      meta ← extractNodeMeta param; mret (params ++ [meta]))
      (c_parameters member) [];
  let '(comments, _) := extractNodeComments (c_pos member) (c_end member) comments in
  mret {| ctor_params := params; ctor_comments := comments |}.

Definition extractClass (classNode : ClassNode) : result Metadata :=
  name ← name_escapedText (cl_name classNode);
  '(constructorMeta, classProps) ←
    forOf (fun member '(constructorMeta, classProps) =>
      match member with
      | Constructor member =>
          meta ← extractConstructor member; mret (Some meta, classProps)
      | PropertyDeclaration member =>
          meta ← extractNodeMeta member; mret (constructorMeta, classProps ++ [meta])
      | OtherMember _ => mret (constructorMeta, classProps)
      end) (cl_members classNode) (None, []);
  mret (ClassMeta name constructorMeta classProps).

Definition extractFunction (functionNode : FunctionNode) : result Metadata :=
  name ← name_escapedText (f_name functionNode);
  returnTypes ← extractNodeTypes (f_type functionNode);
  functionParams ←
    forOf (fun param functionParams =>
      meta ← extractNodeMeta param; mret (functionParams ++ [meta]))
      (f_parameters functionNode) [];
  mret (FunctionMeta name functionParams returnTypes).

Fixpoint extractStructure (node : Node) (sourceMeta : option (list StructureEntry))
    {struct node} : result (list StructureEntry) :=
  match node with
  | SourceFile statements | ModuleBlock statements =>
      let sourceMeta := match sourceMeta with Some a => a | None => [] end in
      forOf (fun statement sourceMeta =>
        match statement with
        | InterfaceDeclaration iNode =>
            meta ← extractInterface iNode; mret (sourceMeta ++ [("Interface", meta)])
        | ClassDeclaration classNode =>
            meta ← extractClass classNode; mret (sourceMeta ++ [("Class", meta)])
        | FunctionDeclaration functionNode =>
            meta ← extractFunction functionNode; mret (sourceMeta ++ [("Function", meta)])
        | ModuleDeclaration _ body =>
            match body with
            | Some body =>
                inner ← extractStructure body None; mret (sourceMeta ++ inner)
            | None =>
                Throw (TypeError "Cannot read properties of undefined (reading 'kind')")
            end
        | _ => mret sourceMeta
        end) statements sourceMeta
  | _ => Throw (Error "node kind must be either SourceFile or ModuleBlock.")
  end.

End Extractor.

(** ** The markdown renderer *)

(** [`${type}`]: a string as it is, [undefined] as the word, an array as
    its elements joined by commas, [undefined] elements left empty. *)
Definition typeToString (type : TypeEntry) : string :=
  match type with
  | Name (Some s) => s
  | Name None => "undefined"
  | Names names =>
      JS.Array_join "," (map (fun n => match n with Some s => s | None => "" end) names)
  end.

(** [`${paramName}`]: [undefined] as the word. *)
Definition nameToString (paramName : option string) : string :=
  match paramName with
  | Some s => s
  | None => "undefined"
  end.

Definition addParamsToMarkdown (params : list FieldMeta) : string :=
  foldl (fun markdown '(paramName, paramMeta) =>
    let markdown :=
      markdown +:+ "- **`" +:+ nameToString paramName +:+ "`**: " +:+
        JS.Array_join " | "
          (map (fun type => "**" +:+ typeToString type +:+ "**") (types paramMeta)) in
    let markdown :=
      if optional paramMeta then markdown +:+ " (optional)" else markdown in
    let markdown :=
      if 0 <? length (comments paramMeta)
      then markdown +:+ LF +:+ "  " +:+ JS.Array_join " " (comments paramMeta)
      else markdown in
    markdown +:+ LF) "" params.

(** One round of the loop of [toMarkdown]. The [comments] of a constructor
    is an array, hence truthy. *)
Definition toMarkdown_entry (markdown : string) (entry : StructureEntry) : string :=
  let '(kind, meta) := entry in
  let markdown := if JS.truthy markdown then markdown +:+ LF else markdown in
  let markdown := markdown +:+ "## " +:+ kind +:+ ": " +:+ meta_name meta +:+ LF in
  let markdown :=
    match meta_constructorMeta meta with
    | Some constructorMeta =>
        let markdown := markdown +:+ LF in
        let markdown :=
          markdown +:+ JS.Array_join (LF +:+ LF) (ctor_comments constructorMeta) +:+ LF in
        let markdown := markdown +:+ LF in
        markdown +:+ addParamsToMarkdown (ctor_params constructorMeta)
    | None => markdown
    end in
  let markdown :=
    match meta_params meta with
    | Some params =>
        let markdown := markdown +:+ LF in
        let markdown := markdown +:+ "### Parameters" +:+ LF in
        if 0 <? length params
        then (markdown +:+ LF) +:+ addParamsToMarkdown params
        else markdown
    | None => markdown
    end in
  match meta_props meta with
  | Some props =>
      if 0 <? length props
      then (((markdown +:+ LF) +:+ "### Properties" +:+ LF) +:+ LF) +:+
             addParamsToMarkdown props
      else markdown
  | None => markdown
  end.

Definition toMarkdown (structure : list StructureEntry) : string :=
  foldl toMarkdown_entry "" structure.

(** * Specification *)

(** ** Type names *)

(** The segments of an entity name, in source order, and the dotted name
    the resolver is to return. *)
Fixpoint segments (typeName : EntityName) : list string :=
  match typeName with
  | Identifier escapedText => [escapedText]
  | QualifiedName left_ right_escapedText => segments left_ ++ [right_escapedText]
  end.

Definition dottedName (typeName : EntityName) : string :=
  JS.Array_join "." (segments typeName).

(** The first identifier of an entity name. *)
Fixpoint leftmost (typeName : EntityName) : string :=
  match typeName with
  | Identifier escapedText => escapedText
  | QualifiedName left_ _ => leftmost left_
  end.

(** ** The [types] of a member *)

(** A node of the given keyword kind, and a union of given members. *)
Definition keywordType (kind : string) : TypeNode :=
  {| ty_kind := kind; ty_types := None; ty_typeName := None; ty_literal := None |}.

Definition unionType (types : list TypeNode) : TypeNode :=
  {| ty_kind := "UnionType"; ty_types := Some types;
     ty_typeName := None; ty_literal := None |}.

(** The keys of [keywordMap]. *)
Definition keywordNames : list string :=
  ["StringKeyword"; "NumberKeyword"; "BooleanKeyword"; "NullKeyword";
   "UndefinedKeyword"; "ObjectKeyword"].

(** The name looked up for a node without [typeName]. *)
Definition keywordOf (type : TypeNode) : string :=
  match ty_literal type with
  | Some literal_kind => literal_kind
  | None => ty_kind type
  end.

(** ** Comments *)

(** [lines] are comment lines whose captured texts are [texts]. *)
Definition commentLines (lines texts : list string) : Prop :=
  Forall2 (fun line text => JS.commentMatch line = Some text) lines texts.

(** The paragraph made of the trimmed texts of consecutive comment lines. *)
Definition paragraph (texts : list string) : string :=
  JS.Array_join " " (map JS.trim texts).

(** The span of a property: the rest of the line before it, two comment
    blocks, the property, and a trailing comment. *)
Definition commentedProperty : string :=
  "{" +:+ LF +:+ "  // first" +:+ LF +:+ "  // second" +:+ String "013" LF +:+ LF +:+
  "  // third" +:+ LF +:+ "  x: string" +:+ LF +:+ "  // not read".

(** A comment line of 118 characters, and a source in which it stands
    before a property. *)
Definition longComment : string :=
  "This identifier is unique across the whole registry and it is never used again, not even after the record was deleted.".

Definition longCommentSource : string :=
  "  // " +:+ longComment +:+ LF +:+ "  id: string".

(** ** Members with a type annotation *)

(** A member is typed when it has a type annotation; only then can its
    types be read. *)
Definition typed (node : MemberNode) : Prop := is_Some (m_type node).

(** ** Classes *)

(** One round of the loop of [extractClass]. *)
Definition extractClass_member (wrap : string -> nat -> string) (src : string)
    (member : ClassMember) (state : option ConstructorMeta * list FieldMeta)
    : result (option ConstructorMeta * list FieldMeta) :=
  let '(constructorMeta, classProps) := state in
  match member with
  | Constructor member =>
      meta ← extractConstructor wrap src member; mret (Some meta, classProps)
  | PropertyDeclaration member =>
      meta ← extractNodeMeta wrap src member; mret (constructorMeta, classProps ++ [meta])
  | OtherMember _ => mret (constructorMeta, classProps)
  end.

(** Every parameter of every constructor and every property is typed. *)
Definition classMemberTyped (member : ClassMember) : Prop :=
  match member with
  | Constructor member => Forall typed (c_parameters member)
  | PropertyDeclaration member => typed member
  | OtherMember _ => True
  end.

Definition isConstructor (member : ClassMember) : bool :=
  match member with
  | Constructor _ => true
  | _ => false
  end.

(** A class with two constructors and a property. *)
Definition firstConstructor : ConstructorNode :=
  mkConstructorNode
    [mkMemberNode (Some "a") false (Some (keywordType "StringKeyword")) 0 0] 0 0.

Definition secondConstructor : ConstructorNode :=
  mkConstructorNode
    [mkMemberNode (Some "b") false (Some (keywordType "NumberKeyword")) 0 0] 0 0.

Definition twoConstructors : ClassNode :=
  mkClassNode (Some "K")
    [Constructor firstConstructor; Constructor secondConstructor;
     PropertyDeclaration
       (mkMemberNode (Some "p") true (Some (keywordType "BooleanKeyword")) 0 0)].

(** ** The structure walker *)

(** A recognized declaration. *)
Inductive Declaration :=
  | DInterface (iNode : InterfaceNode)
  | DClass (classNode : ClassNode)
  | DFunction (functionNode : FunctionNode).

(** The recognized declarations a statement stands for, from top to bottom:
    itself when it is an interface, a class or a function; those of the
    statements of its body when it is a namespace-like container, whose own
    name is dropped; none for any other statement. *)
Fixpoint declarationsOf (statement : Node) : list Declaration :=
  match statement with
  | InterfaceDeclaration iNode => [DInterface iNode]
  | ClassDeclaration classNode => [DClass classNode]
  | FunctionDeclaration functionNode => [DFunction functionNode]
  | ModuleDeclaration _ (Some (SourceFile statements | ModuleBlock statements)) =>
      flat_map declarationsOf statements
  | _ => []
  end.

Definition statementsOf (node : Node) : list Node :=
  match node with
  | SourceFile statements | ModuleBlock statements => statements
  | _ => []
  end.

(** The recognized declarations of a source file or module block. *)
Definition recognized (node : Node) : list Declaration :=
  flat_map declarationsOf (statementsOf node).

(** The entry of a recognized declaration. *)
Definition extractDeclaration (wrap : string -> nat -> string) (src : string)
    (declaration : Declaration) : result StructureEntry :=
  match declaration with
  | DInterface iNode => meta ← extractInterface wrap src iNode; mret ("Interface", meta)
  | DClass classNode => meta ← extractClass wrap src classNode; mret ("Class", meta)
  | DFunction functionNode =>
      meta ← extractFunction wrap src functionNode; mret ("Function", meta)
  end.

(** The kinds the walker accepts. *)
Definition isContainer (node : Node) : bool :=
  match node with
  | SourceFile _ | ModuleBlock _ => true
  | _ => false
  end.

(** Every module declaration in the statement, at any depth, has a body
    of a kind the walker accepts. *)
Fixpoint blocksOnly (statement : Node) : bool :=
  match statement with
  | ModuleDeclaration _ (Some (SourceFile statements | ModuleBlock statements)) =>
      forallb blocksOnly statements
  | ModuleDeclaration _ _ => false
  | _ => true
  end.

Definition containerOk (node : Node) : bool :=
  isContainer node && forallb blocksOnly (statementsOf node).

(** One round of the loop of [extractStructure]. *)
Definition extractStructure_statement (wrap : string -> nat -> string) (src : string)
    (statement : Node) (sourceMeta : list StructureEntry) : result (list StructureEntry) :=
  match statement with
  | InterfaceDeclaration iNode =>
      meta ← extractInterface wrap src iNode; mret (sourceMeta ++ [("Interface", meta)])
  | ClassDeclaration classNode =>
      meta ← extractClass wrap src classNode; mret (sourceMeta ++ [("Class", meta)])
  | FunctionDeclaration functionNode =>
      meta ← extractFunction wrap src functionNode;
      mret (sourceMeta ++ [("Function", meta)])
  | ModuleDeclaration _ body =>
      match body with
      | Some body =>
          inner ← extractStructure wrap src body None; mret (sourceMeta ++ inner)
      | None => Throw (TypeError "Cannot read properties of undefined (reading 'kind')")
      end
  | _ => mret sourceMeta
  end.

(** What processing a statement raises: the error of its extractor, or
    of the walker invoked on the body of a module declaration. *)
Definition raisedBy (wrap : string -> nat -> string) (src : string)
    (statement : Node) (e : exn) : Prop :=
  match statement with
  | InterfaceDeclaration iNode => extractInterface wrap src iNode = Throw e
  | ClassDeclaration classNode => extractClass wrap src classNode = Throw e
  | FunctionDeclaration functionNode => extractFunction wrap src functionNode = Throw e
  | ModuleDeclaration _ (Some body) => extractStructure wrap src body None = Throw e
  | ModuleDeclaration _ None =>
      e = TypeError "Cannot read properties of undefined (reading 'kind')"
  | _ => False
  end.

Definition guardError : exn :=
  Error "node kind must be either SourceFile or ModuleBlock.".

(** What a statement adds to [sourceMeta], and what the walker returns on
    a container, in terms of the recognized declarations. *)
Definition statementSpliced (wrap : string -> nat -> string) (src : string)
    (statement : Node) : Prop :=
  blocksOnly statement = true ->
  forall sourceMeta,
    extractStructure_statement wrap src statement sourceMeta =
    es ← mapM (extractDeclaration wrap src) (declarationsOf statement);
    mret (sourceMeta ++ es).

Definition containerSpliced (wrap : string -> nat -> string) (src : string)
    (node : Node) : Prop :=
  containerOk node = true ->
  forall sourceMeta,
    extractStructure wrap src node sourceMeta =
    es ← mapM (extractDeclaration wrap src) (recognized node);
    mret (default [] sourceMeta ++ es).

(** The kind and the name of an entry, and of a declaration. *)
Definition entryLabel (entry : StructureEntry) : string * option string :=
  (entry.1, Some (meta_name entry.2)).

Definition declarationLabel (declaration : Declaration) : string * option string :=
  match declaration with
  | DInterface iNode => ("Interface", Some (i_name iNode))
  | DClass classNode => ("Class", cl_name classNode)
  | DFunction functionNode => ("Function", f_name functionNode)
  end.

(** A source file with a namespace in a namespace. *)
Definition sampleTree : Node :=
  SourceFile [
    InterfaceDeclaration (mkInterfaceNode "A" []);
    OtherNode "TypeAliasDeclaration";
    ModuleDeclaration "outer" (Some (ModuleBlock [
      FunctionDeclaration (mkFunctionNode (Some "f") [] (Some (keywordType "StringKeyword")));
      ModuleDeclaration "inner" (Some (ModuleBlock [
        ClassDeclaration (mkClassNode (Some "K") [])]))]));
    InterfaceDeclaration (mkInterfaceNode "Z" [])].

(** ** The guard of the walker *)

Definition isTypeError (e : exn) : Prop :=
  match e with
  | TypeError _ => True
  | Error _ => False
  end.

(** The namespace [A.B]: a module declaration whose body is a module
    declaration. *)
Definition dottedNamespace : Node :=
  SourceFile [
    InterfaceDeclaration (mkInterfaceNode "I" []);
    ModuleDeclaration "A" (Some (ModuleDeclaration "B" (Some (ModuleBlock []))))].

(** ** The rendering *)

(** The text of one entry, section by section: the heading line; for a
    constructor its comment paragraphs and its parameters; the heading of
    the parameters whenever the entry has a [params] list, and the bullets
    when the list is not empty; the heading and the bullets of the
    properties when the entry has a [props] list that is not empty. *)
Definition headingLine (kind : string) (meta : Metadata) : string :=
  "## " +:+ kind +:+ ": " +:+ meta_name meta +:+ LF.

Definition constructorSection (meta : Metadata) : string :=
  match meta_constructorMeta meta with
  | Some constructorMeta =>
      LF +:+ JS.Array_join (LF +:+ LF) (ctor_comments constructorMeta) +:+ LF +:+
      LF +:+ addParamsToMarkdown (ctor_params constructorMeta)
  | None => ""
  end.

Definition parametersSection (meta : Metadata) : string :=
  match meta_params meta with
  | Some [] => LF +:+ "### Parameters" +:+ LF
  | Some params =>
      LF +:+ "### Parameters" +:+ LF +:+ LF +:+ addParamsToMarkdown params
  | None => ""
  end.

Definition propertiesSection (meta : Metadata) : string :=
  match meta_props meta with
  | Some [] | None => ""
  | Some props =>
      LF +:+ "### Properties" +:+ LF +:+ LF +:+ addParamsToMarkdown props
  end.

Definition renderEntry (entry : StructureEntry) : string :=
  headingLine entry.1 entry.2 +:+ constructorSection entry.2 +:+
  parametersSection entry.2 +:+ propertiesSection entry.2.

(** A text that ends with a line feed, or is empty. *)
Definition endsLF (s : string) : Prop := exists t, s = t +:+ LF.

Definition emptyOrEndsLF (s : string) : Prop := s = "" \/ endsLF s.

(** ** The [types] of the members of a declaration *)

(** The parser builds no union without members. *)
Definition unionsNonEmpty (node : MemberNode) : Prop :=
  forall type, m_type node = Some type -> ty_types type ≠ Some [].

Definition typesNonEmpty (field : FieldMeta) : Prop := types field.2 ≠ [].

(** The members of a declaration that are extracted, and the fields of its
    metadata. *)
Definition classMemberNodes (member : ClassMember) : list MemberNode :=
  match member with
  | Constructor member => c_parameters member
  | PropertyDeclaration member => [member]
  | OtherMember _ => []
  end.

Definition interfaceMemberNodes (member : InterfaceMember) : list MemberNode :=
  match member with
  | PropertySignature member => [member]
  | OtherSignature _ => []
  end.

Definition membersOf (declaration : Declaration) : list MemberNode :=
  match declaration with
  | DInterface iNode => flat_map interfaceMemberNodes (i_members iNode)
  | DClass classNode => flat_map classMemberNodes (cl_members classNode)
  | DFunction functionNode => f_parameters functionNode
  end.

Definition fieldsOf (meta : Metadata) : list FieldMeta :=
  match meta with
  | InterfaceMeta _ props => props
  | ClassMeta _ constructorMeta props =>
      match constructorMeta with
      | Some constructorMeta => ctor_params constructorMeta
      | None => []
      end ++ props
  | FunctionMeta _ params _ => params
  end.

(** ** The example of the documentation *)

Definition exampleSource : string :=
  "interface Example {" +:+ LF +:+
  "  // Unique identifier." +:+ LF +:+
  "  id: string" +:+ LF +:+
  "  // Occurrence count." +:+ LF +:+
  "  count?: number" +:+ LF +:+
  "}" +:+ LF.

(** The tree of the parser for [exampleSource]: the span of a member starts
    where the token before it ends. *)
Definition exampleTree : Node :=
  SourceFile [
    InterfaceDeclaration (mkInterfaceNode "Example" [
      PropertySignature
        (mkMemberNode (Some "id") false (Some (keywordType "StringKeyword")) 19 56);
      PropertySignature
        (mkMemberNode (Some "count") true (Some (keywordType "NumberKeyword")) 56 96)])].

(** A class whose constructor has neither comment nor parameter, followed
    by an interface, and the tree of the parser for it. *)
Definition bareConstructorSource : string :=
  "class K { constructor() {} }" +:+ LF +:+
  "interface E {}".

Definition bareConstructorTree : Node :=
  SourceFile [
    ClassDeclaration (mkClassNode (Some "K") [Constructor (mkConstructorNode [] 9 26)]);
    InterfaceDeclaration (mkInterfaceNode "E" [])].

(** ** Further definitions *)

(** The property declarations of a class, in member order. *)
Definition propertyDeclarations (members : list ClassMember) : list MemberNode :=
  flat_map (fun member =>
              match member with
              | PropertyDeclaration member => [member]
              | _ => []
              end) members.

(** A module declaration without braces: there is no body to walk. *)
Definition shorthandModule : Node :=
  SourceFile [ModuleDeclaration "m" None].

(** The kind under which the walker files a metadata record. *)
Definition kindOf (meta : Metadata) : string :=
  match meta with
  | InterfaceMeta _ _ => "Interface"
  | ClassMeta _ _ _ => "Class"
  | FunctionMeta _ _ _ => "Function"
  end.

(** A declaration that has a name where its extractor reads one. *)
Definition declarationNamed (declaration : Declaration) : Prop :=
  match declaration with
  | DInterface _ => True
  | DClass classNode => is_Some (cl_name classNode)
  | DFunction functionNode => is_Some (f_name functionNode)
  end.

(** A declaration all of whose extracted members carry a type annotation,
    and which carries a return type annotation when it is a function. *)
Definition declarationTyped (declaration : Declaration) : Prop :=
  Forall typed (membersOf declaration) /\
  match declaration with
  | DFunction functionNode => is_Some (f_type functionNode)
  | _ => True
  end.

(** The number of comment lines among the lines. *)
Definition commentLineCount (lines : list string) : nat :=
  length (filter (fun line => is_Some (JS.commentMatch line)) lines).

(** A text without line feed and carriage return. *)
Definition singleLine (s : string) : Prop :=
  JS.all (fun c => negb (JS.isLineTerminator c)) s = true.

(** The text with every line feed turned into carriage return and line
    feed. *)
Fixpoint toCRLF (s : string) : string :=
  match s with
  | EmptyString => EmptyString
  | String c s' =>
      if Ascii.eqb c "010" then String "013" (String "010" (toCRLF s'))
      else String c (toCRLF s')
  end.

(** A text without carriage return, and one without line feed. *)
Definition noCR (s : string) : Prop :=
  JS.all (fun c => negb (Ascii.eqb c "013")) s = true.

Definition noLF (s : string) : Prop :=
  JS.all (fun c => negb (Ascii.eqb c "010")) s = true.

(** The alternatives of a field as they are rendered: each in bold, with
    bars between them. *)
Definition typesToken (types : list TypeEntry) : string :=
  JS.Array_join " | " (map (fun type => "**" +:+ typeToString type +:+ "**") types).

(** The bullet of one field. *)
Definition bullet (field : FieldMeta) : string :=
  "- **`" +:+ nameToString field.1 +:+ "`**: " +:+ typesToken (types field.2) +:+
  (if optional field.2 then " (optional)" else "") +:+
  match comments field.2 with
  | [] => ""
  | paragraphs => LF +:+ "  " +:+ JS.Array_join " " paragraphs
  end +:+ LF.

(** The [types] of an annotation: one bare name for each member of a
    union, in the order of the members, or the one name of a single
    annotation in an array of its own. *)
Definition typesOf (type : TypeNode) : list TypeEntry :=
  match ty_types type with
  | Some members => map (fun member => Name (resolveType member)) members
  | None => [Names [resolveType type]]
  end.

(** The three property accesses that throw. *)
Definition missingType : exn :=
  TypeError "Cannot read properties of undefined (reading 'types')".

Definition missingName : exn :=
  TypeError "Cannot read properties of undefined (reading 'escapedText')".

Definition missingBody : exn :=
  TypeError "Cannot read properties of undefined (reading 'kind')".

(** A property named by a string literal, typed [string | number | string]. *)
Definition literalNamedProperty : MemberNode :=
  mkMemberNode None true
    (Some (unionType [keywordType "StringKeyword"; keywordType "NumberKeyword";
                      keywordType "StringKeyword"])) 0 0.

(** Default exports: a function and a class without name. *)
Definition unnamedFunction : FunctionNode :=
  mkFunctionNode None
    [mkMemberNode (Some "a") false (Some (keywordType "StringKeyword")) 0 0]
    (Some (keywordType "StringKeyword")).

Definition unnamedClass : ClassNode :=
  mkClassNode None
    [PropertyDeclaration
       (mkMemberNode (Some "x") false (Some (keywordType "StringKeyword")) 0 0)].

(** A source file that holds a function without name, a default export. *)
Definition defaultExport : Node :=
  SourceFile [FunctionDeclaration unnamedFunction].

(** The errors of the walker. *)
Definition walkerError (e : exn) : Prop :=
  e = guardError \/ e = missingType \/ e = missingName \/ e = missingBody.

(** * Properties *)

(** ** Strings *)

Lemma sapp_cons (c : ascii) (s1 s2 : string) :
  String c s1 +:+ s2 = String c (s1 +:+ s2).
Proof. reflexivity. Qed.

Lemma sapp_nil_l (s : string) : "" +:+ s = s.
Proof. reflexivity. Qed.

Lemma sapp_nil_r (s : string) : s +:+ "" = s.
Proof. induction s as [|c s IH]; [done|]. by rewrite sapp_cons, IH. Qed.

Lemma sapp_assoc (s1 s2 s3 : string) : (s1 +:+ s2) +:+ s3 = s1 +:+ s2 +:+ s3.
Proof. induction s1 as [|c s1 IH]; [done|]. by rewrite !sapp_cons, IH. Qed.

Lemma truthy_app_r (s1 s2 : string) : JS.truthy s2 = true -> JS.truthy (s1 +:+ s2) = true.
Proof. destruct s1; [done|]. by rewrite sapp_cons. Qed.

Lemma truthy_app_l (s1 s2 : string) : JS.truthy s1 = true -> JS.truthy (s1 +:+ s2) = true.
Proof. by destruct s1. Qed.

Lemma truthy_ne (s : string) : s ≠ "" <-> JS.truthy s = true.
Proof. destruct s; cbn; split; congruence. Qed.

(** [join] after a [push]. *)
Lemma Array_join_snoc (sep : string) (a : list string) (x : string) :
  a ≠ [] -> JS.Array_join sep (a ++ [x]) = JS.Array_join sep a +:+ sep +:+ x.
Proof.
  unfold JS.Array_join. induction a as [|y a IH]; [done|]. intros _.
  destruct a as [|z a]; [done|].
  change (y +:+ sep +:+ String.concat sep ((z :: a) ++ [x]) =
          (y +:+ sep +:+ String.concat sep (z :: a)) +:+ sep +:+ x).
  rewrite IH by done. by rewrite !sapp_assoc.
Qed.

(** ** Type names *)

Lemma segments_ne (typeName : EntityName) : segments typeName ≠ [].
Proof. destruct typeName; cbn; [done|]. by destruct (segments typeName). Qed.

Lemma extractTypeName_Identifier_id (escapedText : string) :
  extractTypeName_Identifier escapedText = escapedText.
Proof. by destruct escapedText. Qed.

Lemma extractTypeName_qualified_step (left_left : EntityName) (lr r : string) :
  extractTypeName (QualifiedName (QualifiedName left_left lr) r) =
  extractTypeName left_left +:+ "." +:+ lr +:+ "." +:+ r.
Proof.
  cbn [extractTypeName]. rewrite extractTypeName_Identifier_id.
  change ("" +:+ extractTypeName left_left) with (extractTypeName left_left).
  rewrite truthy_app_r by (by apply truthy_app_l).
  by rewrite !sapp_assoc.
Qed.

Lemma extractTypeName_dotted_aux (typeName : EntityName) :
  leftmost typeName ≠ "" ->
  extractTypeName typeName = dottedName typeName /\
  forall r, extractTypeName (QualifiedName typeName r) =
            dottedName (QualifiedName typeName r).
Proof.
  induction typeName as [s|l IH r0]; intros Hne.
  - split; [apply extractTypeName_Identifier_id|]. intros r.
    cbn in Hne. apply truthy_ne in Hne.
    cbn [extractTypeName]. change (JS.truthy "") with false. cbv iota.
    rewrite sapp_nil_l, Hne. by rewrite sapp_assoc.
  - cbn in Hne. destruct (IH Hne) as [IHl IHq]. split; [apply IHq|].
    intros r. rewrite extractTypeName_qualified_step, IHl.
    unfold dottedName. cbn [segments].
    rewrite !Array_join_snoc; [|apply segments_ne|].
    + by rewrite !sapp_assoc.
    + by destruct (segments l).
Qed.

(** C2: a qualified name of any depth resolves to its segments in source
    order, joined by dots, and an identifier to its text. Identifiers are
    tokens of at least one character; the proof needs this of the first
    one only. *)
Theorem extractTypeName_dotted (typeName : EntityName) :
  leftmost typeName ≠ "" ->
  extractTypeName typeName = JS.Array_join "." (segments typeName).
Proof. intros Hne. by apply extractTypeName_dotted_aux. Qed.

Lemma extractTypeName_dotted_witness :
  extractTypeName (QualifiedName (QualifiedName (Identifier "A") "B") "C") = "A.B.C".
Proof.
  exact (extractTypeName_dotted
           (QualifiedName (QualifiedName (Identifier "A") "B") "C")
           ltac:(discriminate)).
Defined.

(** ** The [types] of a member *)

Lemma keywordMap_None (kind : string) :
  kind ∉ keywordNames <-> keywordMap !! kind = None.
Proof. unfold keywordMap. by rewrite <- not_elem_of_list_to_map. Qed.

Lemma push_loop_map {A B : Type} (f : A -> B) (items : list A) (acc : list B) :
  foldl (fun acc x => acc ++ [f x]) acc items = acc ++ map f items.
Proof.
  revert acc. induction items as [|x items IH]; intros acc; cbn.
  - by rewrite app_nil_r.
  - rewrite IH. by rewrite <- app_assoc.
Qed.

Lemma extractNodeTypes_union (type : TypeNode) (members : list TypeNode) :
  ty_types type = Some members ->
  extractNodeTypes (Some type) = Ok (map (fun t => Name (resolveType t)) members).
Proof. intros H. unfold extractNodeTypes. rewrite H. by rewrite push_loop_map. Qed.

Lemma extractNodeTypes_single (type : TypeNode) :
  ty_types type = None ->
  extractNodeTypes (Some type) = Ok [Names [resolveType type]].
Proof. intros H. unfold extractNodeTypes. by rewrite H. Qed.

Lemma extractNodeMeta_typed (wrap : string -> nat -> string) (src : string)
    (node : MemberNode) (ts : list TypeEntry) :
  extractNodeTypes (m_type node) = Ok ts ->
  extractNodeMeta wrap src node =
  Ok (m_name node,
      {| optional := m_questionToken node; types := ts;
         comments := (extractNodeComments wrap src (m_pos node) (m_end node) []).1 |}).
Proof. intros H. unfold extractNodeMeta. by rewrite H. Qed.

Lemma extractNodeMeta_Ok_inv (wrap : string -> nat -> string) (src : string)
    (node : MemberNode) (name : option string) (info : FieldInfo) :
  extractNodeMeta wrap src node = Ok (name, info) ->
  extractNodeTypes (m_type node) = Ok (types info).
Proof.
  unfold extractNodeMeta. destruct (extractNodeTypes (m_type node)) as [ts|e]; [|done].
  cbn. intros [= _ <-]. done.
Qed.

(** C1: on the union [string | number] the alternatives are pushed as bare
    names, not as one-element arrays; only a single annotation is wrapped. *)
Theorem extractNodeTypes_union_bare_names :
  extractNodeTypes
    (Some (unionType [keywordType "StringKeyword"; keywordType "NumberKeyword"])) =
    Ok [Name (Some "string"); Name (Some "number")] /\
  extractNodeTypes
    (Some (unionType [keywordType "StringKeyword"; keywordType "NumberKeyword"])) ≠
    Ok [Names [Some "string"]; Names [Some "number"]] /\
  extractNodeTypes (Some (keywordType "StringKeyword")) = Ok [Names [Some "string"]].
Proof. split; [|split]; [vm_compute; reflexivity | vm_compute; discriminate | vm_compute; reflexivity]. Qed.

(** C8: a node whose keyword is not a key of [keywordMap] resolves to
    [undefined], and the member it annotates is extracted all the same,
    with [undefined] in the place of the name, be the node the whole
    annotation or a member of a union. *)
Theorem unknown_keyword_undefined (wrap : string -> nat -> string) (src : string)
    (type : TypeNode) :
  ty_typeName type = None ->
  keywordOf type ∉ keywordNames ->
  resolveType type = None /\
  (forall node, m_type node = Some type -> ty_types type = None ->
     extractNodeMeta wrap src node =
     Ok (m_name node,
         {| optional := m_questionToken node; types := [Names [None]];
            comments := (extractNodeComments wrap src (m_pos node) (m_end node) []).1 |})) /\
  (forall node union pre post,
     m_type node = Some union -> ty_types union = Some (pre ++ type :: post) ->
     extractNodeMeta wrap src node =
     Ok (m_name node,
         {| optional := m_questionToken node;
            types := map (fun t => Name (resolveType t)) pre ++
                     Name None :: map (fun t => Name (resolveType t)) post;
            comments := (extractNodeComments wrap src (m_pos node) (m_end node) []).1 |})).
Proof.
  intros Hname Hkey.
  assert (resolveType type = None) as Hres.
  { unfold resolveType. rewrite Hname. apply keywordMap_None in Hkey.
    unfold keywordOf in Hkey. by destruct (ty_literal type). }
  split; [done|]. split.
  - intros node Hty Hsingle. apply extractNodeMeta_typed.
    rewrite Hty, (extractNodeTypes_single _ Hsingle). by rewrite Hres.
  - intros node union pre post Hty Hunion. apply extractNodeMeta_typed.
    rewrite Hty, (extractNodeTypes_union _ _ Hunion).
    by rewrite map_app, map_cons, Hres.
Qed.

Lemma unknown_keyword_undefined_witness :
  extractNodeTypes (Some (keywordType "ArrayType")) = Ok [Names [None]] /\
  extractNodeMeta (fun s _ => s) "x: string[]"
    {| m_name := Some "x"; m_questionToken := false;
       m_type := Some (keywordType "ArrayType"); m_pos := 0; m_end := 11 |} =
  Ok (Some "x", {| optional := false; types := [Names [None]]; comments := [] |}).
Proof.
  assert (keywordOf (keywordType "ArrayType") ∉ keywordNames) as Hkey.
  { apply (bool_decide_unpack _). vm_compute. exact I. }
  destruct (unknown_keyword_undefined (fun s _ => s) "x: string[]"
              (keywordType "ArrayType") eq_refl Hkey) as (_ & Hsingle & _).
  split; [vm_compute; reflexivity|].
  exact (Hsingle
           {| m_name := Some "x"; m_questionToken := false;
              m_type := Some (keywordType "ArrayType"); m_pos := 0; m_end := 11 |}
           eq_refl eq_refl).
Defined.

(** ** Comments *)

Lemma commentMatch_blank (line : string) :
  JS.blankMatch line = true -> JS.commentMatch line = None.
Proof.
  unfold JS.blankMatch. induction line as [|c line IH]; [done|].
  cbn. destruct (JS.isWhiteSpace c); [done|]. done.
Qed.

Lemma scanLines_comment (line text : string) (rest comments : list string)
    (seenComment lineBreak : bool) :
  JS.commentMatch line = Some text ->
  scanLines (line :: rest) comments seenComment lineBreak =
  scanLines rest
    (if negb lineBreak && (0 <? length comments)
     then alter (fun last => last +:+ " " +:+ JS.trim text) (length comments - 1) comments
     else comments ++ [JS.trim text]) true false.
Proof. intros H. cbn [scanLines]. by rewrite H. Qed.

Lemma scanLines_blank (line : string) (rest comments : list string)
    (seenComment lineBreak : bool) :
  JS.blankMatch line = true ->
  scanLines (line :: rest) comments seenComment lineBreak =
  scanLines rest comments seenComment true.
Proof.
  intros H. cbn [scanLines]. by rewrite (commentMatch_blank _ H), H.
Qed.

(** The [break]: what follows the line is not read. *)
Lemma scanLines_code_break (line : string) (rest comments : list string) :
  JS.commentMatch line = None -> JS.blankMatch line = false ->
  scanLines (line :: rest) comments true false = comments.
Proof. intros Hc Hb. cbn [scanLines]. by rewrite Hc, Hb. Qed.

Lemma scanLines_code_continue (line : string) (rest comments : list string)
    (seenComment lineBreak : bool) :
  JS.commentMatch line = None -> JS.blankMatch line = false ->
  negb lineBreak && seenComment = false ->
  scanLines (line :: rest) comments seenComment lineBreak =
  scanLines rest comments seenComment lineBreak.
Proof. intros Hc Hb Hs. cbn [scanLines]. by rewrite Hc, Hb, Hs. Qed.

Lemma alter_last {A : Type} (f : A -> A) (init : list A) (x : A) :
  alter f (length (init ++ [x]) - 1) (init ++ [x]) = init ++ [f x].
Proof.
  rewrite length_app. cbn [length].
  replace (length init + 1 - 1) with (length init + 0) by lia.
  by rewrite alter_app_r.
Qed.

Lemma Array_join_merge (sep a b : string) (l : list string) :
  JS.Array_join sep ((a +:+ sep +:+ b) :: l) = a +:+ sep +:+ JS.Array_join sep (b :: l).
Proof.
  unfold JS.Array_join. destruct l as [|y l]; [done|].
  change ((a +:+ sep +:+ b) +:+ sep +:+ String.concat sep (y :: l) =
          a +:+ sep +:+ b +:+ sep +:+ String.concat sep (y :: l)).
  by rewrite !sapp_assoc.
Qed.

(** Comment lines directly after a comment line go on extending the last
    paragraph. *)
Lemma scanLines_continuation (run texts rest init : list string) (last : string) :
  commentLines run texts ->
  scanLines (run ++ rest) (init ++ [last]) true false =
  scanLines rest (init ++ [JS.Array_join " " (last :: map JS.trim texts)]) true false.
Proof.
  intros Hrun. revert last.
  induction Hrun as [|line text run texts Hline _ IH]; intros last; [done|].
  cbn [app]. rewrite (scanLines_comment _ _ _ _ _ _ Hline).
  replace (negb false && (0 <? length (init ++ [last]))) with true
    by (symmetry; apply Nat.ltb_lt; rewrite length_app; cbn [length]; lia).
  rewrite alter_last, IH. cbn [map]. by rewrite Array_join_merge.
Qed.

(** A run of comment lines that starts the comments, or comes after a blank
    line, makes one new paragraph. *)
Lemma scanLines_run (run texts rest comments : list string)
    (seenComment lineBreak : bool) :
  commentLines run texts -> run ≠ [] ->
  lineBreak = true \/ comments = [] ->
  scanLines (run ++ rest) comments seenComment lineBreak =
  scanLines rest (comments ++ [paragraph texts]) true false.
Proof.
  intros Hrun Hne Hstart.
  destruct Hrun as [|line text run texts Hline Hrun]; [done|].
  cbn [app]. rewrite (scanLines_comment _ _ _ _ _ _ Hline).
  replace (negb lineBreak && (0 <? length comments)) with false
    by (destruct Hstart as [-> | ->]; [|destruct lineBreak]; reflexivity).
  by rewrite (scanLines_continuation _ _ _ _ _ Hrun).
Qed.

(** Before the first comment line nothing is collected and nothing stops
    the scan. *)
Lemma scanLines_before (before rest : list string) (lineBreak : bool) :
  Forall (fun line => JS.commentMatch line = None) before ->
  exists lineBreak',
    scanLines (before ++ rest) [] false lineBreak = scanLines rest [] false lineBreak'.
Proof.
  intros Hbefore. revert lineBreak.
  induction Hbefore as [|line before Hline _ IH]; intros lineBreak.
  - by exists lineBreak.
  - cbn [app scanLines]. rewrite Hline.
    destruct (JS.blankMatch line); [apply IH|].
    rewrite andb_false_r. apply IH.
Qed.

(** C3: in the span of a node, after whatever stands before the first
    comment line, a run of consecutive comment lines becomes one paragraph
    (1); a second run after a blank line becomes a second paragraph (2),
    also when code stands between the blank line and the run (5); a code
    line directly after a run ends the scan, the lines after it are not
    read (3, 4). *)
Theorem comment_association (before run1 run2 texts1 texts2 rest : list string)
    (blank code : string) :
  Forall (fun line => JS.commentMatch line = None) before ->
  commentLines run1 texts1 -> run1 ≠ [] ->
  commentLines run2 texts2 -> run2 ≠ [] ->
  JS.blankMatch blank = true ->
  JS.commentMatch code = None -> JS.blankMatch code = false ->
  scanLines (before ++ run1) [] false false = [paragraph texts1] /\
  scanLines (before ++ run1 ++ blank :: run2) [] false false =
    [paragraph texts1; paragraph texts2] /\
  scanLines (before ++ run1 ++ code :: rest) [] false false = [paragraph texts1] /\
  scanLines (before ++ run1 ++ blank :: run2 ++ code :: rest) [] false false =
    [paragraph texts1; paragraph texts2] /\
  scanLines (before ++ run1 ++ blank :: code :: run2) [] false false =
    [paragraph texts1; paragraph texts2].
Proof.
  intros Hbefore Hrun1 Hne1 Hrun2 Hne2 Hblank Hcode1 Hcode2.
  assert (forall tail, scanLines (before ++ run1 ++ tail) [] false false =
                       scanLines tail [paragraph texts1] true false) as Hfirst.
  { intros tail. destruct (scanLines_before before (run1 ++ tail) false Hbefore) as [lb ->].
    by rewrite (scanLines_run _ _ _ _ _ _ Hrun1 Hne1) by (by right). }
  assert (forall tail, scanLines (run2 ++ tail) [paragraph texts1] true true =
                       scanLines tail [paragraph texts1; paragraph texts2] true false)
    as Hsecond.
  { intros tail. by rewrite (scanLines_run _ _ _ _ _ _ Hrun2 Hne2) by (by left). }
  repeat split.
  - rewrite <- (app_nil_r run1), Hfirst. done.
  - rewrite Hfirst, (scanLines_blank _ _ _ _ _ Hblank).
    rewrite <- (app_nil_r run2), Hsecond. done.
  - rewrite Hfirst. by apply scanLines_code_break.
  - rewrite Hfirst, (scanLines_blank _ _ _ _ _ Hblank), Hsecond.
    by apply scanLines_code_break.
  - rewrite Hfirst, (scanLines_blank _ _ _ _ _ Hblank).
    rewrite (scanLines_code_continue _ _ _ _ _ Hcode1 Hcode2) by done.
    rewrite <- (app_nil_r run2), Hsecond. done.
Qed.

Lemma comment_association_witness :
  JS.splitLines (JS.slice commentedProperty 0 (String.length commentedProperty)) =
    ["{"; "  // first"; "  // second"; ""; "  // third"; "  x: string"; "  // not read"] /\
  (extractNodeComments (fun s _ => s) commentedProperty 0
     (String.length commentedProperty) []).1 = ["first second"; "third"].
Proof.
  split; [vm_compute; reflexivity|].
  refine (proj1 (proj2 (proj2 (proj2
    (comment_association ["{"] ["  // first"; "  // second"] ["  // third"]
       [" first"; " second"] [" third"] ["  // not read"] "" "  x: string"
       _ _ _ _ _ _ _ _))))).
  - repeat constructor.
  - repeat constructor.
  - discriminate.
  - repeat constructor.
  - discriminate.
  - reflexivity.
  - reflexivity.
  - reflexivity.
Defined.

(** The array a member keeps does not depend on the wrapping function:
    the wrapped text is the returned value, which no caller reads. *)
Lemma extractNodeMeta_wrap_unused (wrap1 wrap2 : string -> nat -> string)
    (src : string) (node : MemberNode) :
  extractNodeMeta wrap1 src node = extractNodeMeta wrap2 src node.
Proof. reflexivity. Qed.

(** C4: a comment line of more than 80 characters stays one unbroken
    paragraph in the [comments] of the member; the joined and wrapped text
    is what [extractNodeComments] returns, and [extractNodeMeta] drops it. *)
Theorem extractNodeMeta_comments_unwrapped (wrap : string -> nat -> string) :
  extractNodeMeta wrap longCommentSource
    {| m_name := Some "id"; m_questionToken := false;
       m_type := Some (keywordType "StringKeyword");
       m_pos := 0; m_end := String.length longCommentSource |} =
  Ok (Some "id", {| optional := false; types := [Names [Some "string"]];
               comments := [longComment] |}) /\
  80 < String.length longComment /\
  extractNodeComments wrap longCommentSource 0 (String.length longCommentSource) [] =
  ([longComment], wrap longComment 80).
Proof.
  split; [vm_compute; reflexivity|]. split; [vm_compute; lia|].
  unfold extractNodeComments.
  replace (scanLines _ _ _ _) with [longComment] by (vm_compute; reflexivity).
  reflexivity.
Qed.

(** ** Loops *)

Lemma forOf_app {A S : Type} (body : A -> S -> result S) (l1 l2 : list A) (s : S) :
  forOf body (l1 ++ l2) s = s' ← forOf body l1 s; forOf body l2 s'.
Proof.
  revert s. induction l1 as [|x l1 IH]; intros s; [done|].
  cbn. destruct (body x s) as [s'|e]; [apply IH|done].
Qed.

Lemma bind_Ok {A B : Type} (f : A -> result B) (a : A) : (Ok a ≫= f) = f a.
Proof. reflexivity. Qed.

Lemma bind_Throw {A B : Type} (f : A -> result B) (e : exn) :
  (Throw e ≫= f) = Throw e.
Proof. reflexivity. Qed.

Lemma extractNodeTypes_Some (type : TypeNode) :
  exists ts, extractNodeTypes (Some type) = Ok ts.
Proof. unfold extractNodeTypes. destruct (ty_types type); eauto. Qed.

Lemma extractNodeMeta_Some (wrap : string -> nat -> string) (src : string)
    (node : MemberNode) :
  typed node -> exists meta, extractNodeMeta wrap src node = Ok meta.
Proof.
  intros [type Hty]. destruct (extractNodeTypes_Some type) as [ts Hts].
  eexists. apply extractNodeMeta_typed. rewrite Hty. apply Hts.
Qed.

(** The loops that push the metadata of each parameter or property. *)
Lemma push_members_typed (wrap : string -> nat -> string) (src : string)
    (members : list MemberNode) (acc : list FieldMeta) :
  Forall typed members ->
  exists metas,
    forOf (fun param params =>
             meta ← extractNodeMeta wrap src param; mret (params ++ [meta]))
          members acc = Ok (acc ++ metas) /\
    length metas = length members.
Proof.
  intros Hall. revert acc.
  induction Hall as [|node members Hnode _ IH]; intros acc.
  - exists []. by rewrite app_nil_r.
  - destruct (extractNodeMeta_Some wrap src node Hnode) as [meta Hmeta].
    destruct (IH (acc ++ [meta])) as (metas & Hloop & Hlen).
    exists (meta :: metas). cbn [forOf]. rewrite Hmeta. cbn.
    split; [|by rewrite Hlen].
    etrans; [apply Hloop|]. by rewrite <- app_assoc.
Qed.

Lemma extractConstructor_typed (wrap : string -> nat -> string) (src : string)
    (member : ConstructorNode) :
  Forall typed (c_parameters member) ->
  exists meta, extractConstructor wrap src member = Ok meta.
Proof.
  intros Hall.
  destruct (push_members_typed wrap src _ [] Hall) as (metas & Hloop & _).
  unfold extractConstructor, FieldMeta in *. rewrite Hloop. cbn. eauto.
Qed.

(** ** Classes *)

Lemma extractClass_loop (wrap : string -> nat -> string) (src : string)
    (classNode : ClassNode) (name : string) :
  cl_name classNode = Some name ->
  extractClass wrap src classNode =
  '(constructorMeta, classProps) ←
    forOf (extractClass_member wrap src) (cl_members classNode) (None, []);
  mret (ClassMeta name constructorMeta classProps).
Proof. intros Hname. unfold extractClass. by rewrite Hname. Qed.

Lemma extractClass_unnamed (wrap : string -> nat -> string) (src : string)
    (classNode : ClassNode) :
  cl_name classNode = None ->
  extractClass wrap src classNode =
  Throw (TypeError "Cannot read properties of undefined (reading 'escapedText')").
Proof. intros Hname. unfold extractClass. by rewrite Hname. Qed.

Lemma extractFunction_unnamed (wrap : string -> nat -> string) (src : string)
    (functionNode : FunctionNode) :
  f_name functionNode = None ->
  extractFunction wrap src functionNode =
  Throw (TypeError "Cannot read properties of undefined (reading 'escapedText')").
Proof. intros Hname. unfold extractFunction. by rewrite Hname. Qed.

Lemma extractFunction_named (wrap : string -> nat -> string) (src : string)
    (functionNode : FunctionNode) (name : string) :
  f_name functionNode = Some name ->
  extractFunction wrap src functionNode =
  returnTypes ← extractNodeTypes (f_type functionNode);
  functionParams ←
    forOf (fun param functionParams =>
             meta ← extractNodeMeta wrap src param; mret (functionParams ++ [meta]))
          (f_parameters functionNode) [];
  mret (FunctionMeta name functionParams returnTypes).
Proof. intros Hname. unfold extractFunction. by rewrite Hname. Qed.

(** A class or function in the goal either has a name, and its extractor
    goes on with its loops, or has none, and its extractor throws. *)
Ltac class_name classNode :=
  let name := fresh "name" in
  let Hname := fresh "Hname" in
  destruct (cl_name classNode) as [name|] eqn:Hname;
  [rewrite (extractClass_loop _ _ _ _ Hname)
  |rewrite extractClass_unnamed by done].

Ltac function_name functionNode :=
  let name := fresh "name" in
  let Hname := fresh "Hname" in
  destruct (f_name functionNode) as [name|] eqn:Hname;
  [rewrite (extractFunction_named _ _ _ _ Hname)
  |rewrite extractFunction_unnamed by done].

Lemma class_loop_typed (wrap : string -> nat -> string) (src : string)
    (members : list ClassMember) (state : option ConstructorMeta * list FieldMeta) :
  Forall classMemberTyped members ->
  exists state', forOf (extractClass_member wrap src) members state = Ok state'.
Proof.
  intros Hall. revert state.
  induction Hall as [|member members Hmember _ IH]; intros [ctor props]; [by eexists|].
  cbn [forOf]. destruct member as [c|p|k]; cbn in Hmember |- *.
  - destruct (extractConstructor_typed wrap src c Hmember) as [meta ->]. apply IH.
  - destruct (extractNodeMeta_Some wrap src p Hmember) as [meta ->]. apply IH.
  - apply IH.
Qed.

(** Members other than constructors leave [constructorMeta] as it is. *)
Lemma class_loop_keeps_constructor (wrap : string -> nat -> string) (src : string)
    (members : list ClassMember) (ctor ctor' : option ConstructorMeta)
    (props props' : list FieldMeta) :
  Forall (fun member => isConstructor member = false) members ->
  forOf (extractClass_member wrap src) members (ctor, props) = Ok (ctor', props') ->
  ctor' = ctor.
Proof.
  intros Hall. revert props.
  induction Hall as [|member members Hmember _ IH]; intros props; cbn [forOf].
  - by intros [= -> _].
  - destruct member as [c|p|k]; [done| |]; cbn.
    + destruct (extractNodeMeta wrap src p) as [meta|e]; [|done]. apply IH.
    + apply IH.
Qed.

Lemma forOf_Ok_split {A S : Type} (body : A -> S -> result S)
    (l1 l2 : list A) (x : A) (s s' : S) :
  forOf body (l1 ++ x :: l2) s = Ok s' ->
  exists s1 s2, forOf body l1 s = Ok s1 /\ body x s1 = Ok s2 /\ forOf body l2 s2 = Ok s'.
Proof.
  rewrite forOf_app. destruct (forOf body l1 s) as [s1|e]; [|done].
  rewrite bind_Ok. cbn [forOf]. destruct (body x s1) as [s2|e] eqn:Hx; [|done].
  intros H. by exists s1, s2.
Qed.

(** C10: of several constructors of a class the last one in member order
    gives [constructorMeta]: whenever the class is extracted (1), and a
    class that has a name is extracted whenever its parameters and
    properties are all typed, so that the number of constructors raises no
    error (2). *)
Theorem extractClass_last_constructor (wrap : string -> nat -> string) (src : string)
    (classNode : ClassNode) (before after : list ClassMember) (member : ConstructorNode) :
  cl_members classNode = before ++ Constructor member :: after ->
  Forall (fun member => isConstructor member = false) after ->
  (forall classMeta,
     extractClass wrap src classNode = Ok classMeta ->
     exists meta,
       extractConstructor wrap src member = Ok meta /\
       meta_constructorMeta classMeta = Some meta) /\
  (forall name,
     cl_name classNode = Some name ->
     Forall classMemberTyped (cl_members classNode) ->
     exists meta props,
       extractConstructor wrap src member = Ok meta /\
       extractClass wrap src classNode = Ok (ClassMeta name (Some meta) props)).
Proof.
  intros Hmembers Hafter. split.
  - intros classMeta. destruct (cl_name classNode) as [name|] eqn:Hname;
      [|by rewrite extractClass_unnamed].
    rewrite (extractClass_loop _ _ _ _ Hname), Hmembers.
    destruct (forOf _ (before ++ Constructor member :: after) _)
      as [[ctor props]|e] eqn:Hloop; cbn; [|done].
    intros [= <-]. cbn.
    apply forOf_Ok_split in Hloop as ([ctor0 props0] & [ctor1 props1] & _ & Hc & H1).
    cbn in Hc. destruct (extractConstructor wrap src member) as [meta|e]; [|done].
    cbn in Hc. injection Hc as <- <-.
    pose proof (class_loop_keeps_constructor _ _ _ _ _ _ _ Hafter H1) as ->.
    by exists meta.
  - intros name Hname Htyped. rewrite Hmembers in Htyped.
    apply Forall_app in Htyped as [Hbefore Hrest].
    apply Forall_cons in Hrest as [Hmember Hafter'].
    destruct (class_loop_typed wrap src before (None, []) Hbefore) as [[ctor0 props0] H0].
    destruct (extractConstructor_typed wrap src member Hmember) as [meta Hmeta].
    destruct (class_loop_typed wrap src after (Some meta, props0) Hafter')
      as [[ctor1 props1] H1].
    pose proof (class_loop_keeps_constructor _ _ _ _ _ _ _ Hafter H1) as ->.
    exists meta, props1. split; [done|].
    rewrite (extractClass_loop _ _ _ _ Hname), Hmembers, forOf_app, H0, bind_Ok.
    cbn [forOf extractClass_member]. rewrite Hmeta. cbn. by rewrite H1.
Qed.

Lemma extractClass_last_constructor_witness :
  (exists meta props,
     extractConstructor (fun s _ => s) "" secondConstructor = Ok meta /\
     extractClass (fun s _ => s) "" twoConstructors =
     Ok (ClassMeta "K" (Some meta) props)) /\
  extractClass (fun s _ => s) "" twoConstructors =
  Ok (ClassMeta "K"
        (Some {| ctor_params :=
                   [(Some "b", {| optional := false; types := [Names [Some "number"]];
                             comments := [] |})];
                 ctor_comments := [] |})
        [(Some "p", {| optional := true; types := [Names [Some "boolean"]];
                  comments := [] |})]).
Proof.
  split; [|vm_compute; reflexivity].
  refine (proj2 (extractClass_last_constructor (fun s _ => s) "" twoConstructors
    [Constructor firstConstructor]
    [PropertyDeclaration
       (mkMemberNode (Some "p") true (Some (keywordType "BooleanKeyword")) 0 0)]
    secondConstructor eq_refl _) "K" eq_refl _).
  - repeat constructor.
  - repeat apply Forall_cons_2; try apply Forall_nil_2; cbn;
      repeat apply Forall_cons_2; try apply Forall_nil_2; by eexists.
Defined.

(** ** The structure walker *)

Lemma Node_nested_ind (P : Node -> Prop) :
  (forall statements, Forall P statements -> P (SourceFile statements)) ->
  (forall statements, Forall P statements -> P (ModuleBlock statements)) ->
  (forall iNode, P (InterfaceDeclaration iNode)) ->
  (forall classNode, P (ClassDeclaration classNode)) ->
  (forall functionNode, P (FunctionDeclaration functionNode)) ->
  (forall name body, P body -> P (ModuleDeclaration name (Some body))) ->
  (forall name, P (ModuleDeclaration name None)) ->
  (forall kind, P (OtherNode kind)) ->
  forall node, P node.
Proof.
  intros Hsource Hblock Hinterface Hclass Hfunction Hmodule Hnobody Hother.
  fix IH 1. intros [statements|statements|iNode|classNode|functionNode|name [body|]|kind].
  - apply Hsource. induction statements as [|statement statements IHs]; constructor;
      [apply IH | apply IHs].
  - apply Hblock. induction statements as [|statement statements IHs]; constructor;
      [apply IH | apply IHs].
  - apply Hinterface.
  - apply Hclass.
  - apply Hfunction.
  - apply Hmodule, IH.
  - apply Hnobody.
  - apply Hother.
Qed.

Lemma extractStructure_container (wrap : string -> nat -> string) (src : string)
    (node : Node) (sourceMeta : option (list StructureEntry)) :
  isContainer node = true ->
  extractStructure wrap src node sourceMeta =
  forOf (extractStructure_statement wrap src) (statementsOf node)
        (default [] sourceMeta).
Proof. destruct node; try done; intros _; by destruct sourceMeta. Qed.

Lemma extractStructure_not_container (wrap : string -> nat -> string) (src : string)
    (node : Node) (sourceMeta : option (list StructureEntry)) :
  isContainer node = false ->
  extractStructure wrap src node sourceMeta = Throw guardError.
Proof. by destruct node. Qed.

Lemma mapM_result_app {A B : Type} (f : A -> result B) (l1 l2 : list A) :
  mapM f (l1 ++ l2) = a ← mapM f l1; b ← mapM f l2; mret (a ++ b).
Proof.
  induction l1 as [|x l1 IH]; cbn.
  - by destruct (mapM f l2).
  - destruct (f x) as [y|e]; [|done]. cbn. rewrite IH.
    destruct (mapM f l1) as [a|e]; [|done]. cbn.
    by destruct (mapM f l2).
Qed.

Lemma mapM_result_Throw {A B : Type} (f : A -> result B) (l : list A) (e : exn) :
  mapM f l = Throw e -> exists x, x ∈ l /\ f x = Throw e.
Proof.
  induction l as [|x l IH]; cbn; [done|].
  destruct (f x) as [y|e'] eqn:Hx; cbn.
  - destruct (mapM f l) as [k|e'']; cbn; [done|]. intros [= ->].
    destruct IH as (x' & Hin & Hx'); [done|]. exists x'. split; [by right|done].
  - intros [= ->]. exists x. split; [by left|done].
Qed.

Lemma mapM_result_Ok {A B : Type} (f : A -> result B) (l : list A) (k : list B) :
  mapM f l = Ok k -> Forall2 (fun x y => f x = Ok y) l k.
Proof.
  revert k. induction l as [|x l IH]; cbn; intros k.
  - intros [= <-]. constructor.
  - destruct (f x) as [y|e] eqn:Hx; cbn; [|done].
    destruct (mapM f l) as [k'|e]; cbn; [|done]. intros [= <-].
    constructor; [done|by apply IH].
Qed.

Lemma forOf_Throw {A S : Type} (body : A -> S -> result S) (l : list A) (s : S) (e : exn) :
  forOf body l s = Throw e -> exists x s', x ∈ l /\ body x s' = Throw e.
Proof.
  revert s. induction l as [|x l IH]; intros s; cbn; [done|].
  destruct (body x s) as [s'|e'] eqn:Hx.
  - intros H. destruct (IH _ H) as (x' & s'' & Hin & Hx').
    exists x', s''. split; [by right|done].
  - intros [= ->]. exists x, s. split; [by left|done].
Qed.

Lemma walker_loop (wrap : string -> nat -> string) (src : string)
    (statements : list Node) :
  Forall (statementSpliced wrap src) statements ->
  forallb blocksOnly statements = true ->
  forall sourceMeta,
    forOf (extractStructure_statement wrap src) statements sourceMeta =
    es ← mapM (extractDeclaration wrap src) (flat_map declarationsOf statements);
    mret (sourceMeta ++ es).
Proof.
  induction 1 as [|statement statements Hstatement _ IH]; intros Hok sourceMeta.
  - cbn. by rewrite app_nil_r.
  - cbn in Hok. apply andb_prop in Hok as [Hok1 Hok2].
    cbn [forOf flat_map]. rewrite (Hstatement Hok1), mapM_result_app.
    destruct (mapM _ (declarationsOf statement)) as [es1|e]; [|done].
    rewrite !bind_Ok. change (mret ?x) with (Ok x) at 1. cbv beta iota.
    rewrite (IH Hok2).
    destruct (mapM _ (flat_map declarationsOf statements)) as [es2|e]; [|done].
    cbn. by rewrite app_assoc.
Qed.

Lemma walker_spliced (wrap : string -> nat -> string) (src : string) (node : Node) :
  statementSpliced wrap src node /\ containerSpliced wrap src node.
Proof.
  induction node as [statements IH|statements IH|iNode|classNode|functionNode
                    |name body [_ IH]|name|kind] using Node_nested_ind.
  - split; [intros _ sourceMeta; cbn; by rewrite app_nil_r|].
    intros Hok sourceMeta. rewrite extractStructure_container by done.
    apply walker_loop; [|done]. eapply Forall_impl; [exact IH|]. by intros ? [? _].
  - split; [intros _ sourceMeta; cbn; by rewrite app_nil_r|].
    intros Hok sourceMeta. rewrite extractStructure_container by done.
    apply walker_loop; [|done]. eapply Forall_impl; [exact IH|]. by intros ? [? _].
  - split; [|done]. intros _ sourceMeta. cbn.
    by destruct (extractInterface wrap src iNode).
  - split; [|done]. intros _ sourceMeta. cbn.
    by destruct (extractClass wrap src classNode).
  - split; [|done]. intros _ sourceMeta. cbn.
    by destruct (extractFunction wrap src functionNode).
  - split; [|done]. intros Hok sourceMeta.
    assert (containerOk body = true /\
            declarationsOf (ModuleDeclaration name (Some body)) = recognized body)
      as [Hbody ->] by (by destruct body).
    cbn [extractStructure_statement]. rewrite (IH Hbody None).
    by destruct (mapM _ (recognized body)).
  - split; done.
  - split; [|done]. intros _ sourceMeta. cbn. by rewrite app_nil_r.
Qed.

Lemma extractDeclaration_label (wrap : string -> nat -> string) (src : string)
    (declaration : Declaration) (entry : StructureEntry) :
  extractDeclaration wrap src declaration = Ok entry ->
  entryLabel entry = declarationLabel declaration.
Proof.
  destruct declaration as [iNode|classNode|functionNode]; cbn.
  - unfold extractInterface. destruct (forOf _ _ _); cbn; [|done]. by intros [= <-].
  - class_name classNode; [|done].
    destruct (forOf _ _ _) as [[ctor props]|]; cbn; [|done].
    by intros [= <-].
  - function_name functionNode; [|done].
    destruct (extractNodeTypes _); cbn; [|done].
    destruct (forOf _ _ _); cbn; [|done]. by intros [= <-].
Qed.

Lemma mapM_labels (wrap : string -> nat -> string) (src : string)
    (declarations : list Declaration) (structure : list StructureEntry) :
  mapM (extractDeclaration wrap src) declarations = Ok structure ->
  map entryLabel structure = map declarationLabel declarations.
Proof.
  intros H. apply mapM_result_Ok in H.
  induction H as [|declaration entry declarations structure Hentry _ IH]; [done|].
  cbn [map]. by rewrite IH, (extractDeclaration_label _ _ _ _ Hentry).
Qed.

(** A statement that is processed without error has module blocks as the
    bodies of its module declarations, and so has a container on which the
    walker returns. *)
Lemma walker_loop_Ok (wrap : string -> nat -> string) (src : string)
    (statements : list Node) (sourceMeta sourceMeta' : list StructureEntry) :
  Forall (fun statement =>
            forall acc acc',
              extractStructure_statement wrap src statement acc = Ok acc' ->
              blocksOnly statement = true) statements ->
  forOf (extractStructure_statement wrap src) statements sourceMeta = Ok sourceMeta' ->
  forallb blocksOnly statements = true.
Proof.
  intros Hall. revert sourceMeta.
  induction Hall as [|statement statements Hstatement _ IH]; intros sourceMeta; [done|].
  cbn [forOf forallb].
  destruct (extractStructure_statement wrap src statement sourceMeta)
    as [acc|e] eqn:Hs; [|done].
  intros Hrest. by rewrite (Hstatement _ _ Hs), (IH _ Hrest).
Qed.

Lemma walker_Ok_blocks (wrap : string -> nat -> string) (src : string) (node : Node) :
  (forall acc acc',
     extractStructure_statement wrap src node acc = Ok acc' -> blocksOnly node = true) /\
  (forall sourceMeta structure,
     extractStructure wrap src node sourceMeta = Ok structure -> containerOk node = true).
Proof.
  induction node as [statements IH|statements IH|iNode|classNode|functionNode
                    |name body [_ IH]|name|kind] using Node_nested_ind;
    (split; [try done|try done]).
  - intros sourceMeta structure. rewrite extractStructure_container by done.
    apply walker_loop_Ok. eapply Forall_impl; [exact IH|]. by intros ? [? _].
  - intros sourceMeta structure. rewrite extractStructure_container by done.
    apply walker_loop_Ok. eapply Forall_impl; [exact IH|]. by intros ? [? _].
  - intros acc acc'. cbn.
    destruct (extractStructure wrap src body None) as [inner|e] eqn:Hbody; [|done].
    intros _. apply IH in Hbody. by destruct body.
Qed.

(** C5: whenever the walker returns a sequence, it is the entries of the
    recognized declarations in source order, those of a nested container
    spliced in at its place, statements of other kinds adding nothing; the
    kinds and names of the entries are those of the declarations, in the
    same order (1). On a source file or module block whose module
    declarations all have module blocks as bodies the walker is the
    extraction of these declarations one after the other (2). *)
Theorem extractStructure_source_order (wrap : string -> nat -> string) (src : string)
    (node : Node) :
  (forall structure,
     extractStructure wrap src node None = Ok structure ->
     mapM (extractDeclaration wrap src) (recognized node) = Ok structure /\
     map entryLabel structure = map declarationLabel (recognized node)) /\
  (containerOk node = true ->
   extractStructure wrap src node None =
   mapM (extractDeclaration wrap src) (recognized node)).
Proof.
  assert (containerOk node = true ->
          extractStructure wrap src node None =
          mapM (extractDeclaration wrap src) (recognized node)) as Heq.
  { intros Hok. rewrite (proj2 (walker_spliced wrap src node) Hok None).
    by destruct (mapM _ (recognized node)). }
  split; [|done]. intros structure Hstructure.
  pose proof (proj2 (walker_Ok_blocks wrap src node) _ _ Hstructure) as Hok.
  rewrite (Heq Hok) in Hstructure. split; [done|].
  by apply (mapM_labels wrap src).
Qed.

Lemma extractStructure_source_order_witness :
  containerOk sampleTree = true /\
  extractStructure (fun s _ => s) "" sampleTree None =
  Ok [("Interface", InterfaceMeta "A" []);
      ("Function", FunctionMeta "f" [] [Names [Some "string"]]);
      ("Class", ClassMeta "K" None []);
      ("Interface", InterfaceMeta "Z" [])].
Proof.
  split; [reflexivity|].
  rewrite (proj2 (extractStructure_source_order (fun s _ => s) "" sampleTree) eq_refl).
  vm_compute. reflexivity.
Defined.

(** ** The guard of the walker *)

Lemma extractNodeTypes_Throw (node_type : option TypeNode) (e : exn) :
  extractNodeTypes node_type = Throw e -> isTypeError e.
Proof.
  destruct node_type as [type|]; cbn; [|by intros [= <-]].
  by destruct (ty_types type).
Qed.

Lemma extractNodeMeta_Throw (wrap : string -> nat -> string) (src : string)
    (node : MemberNode) (e : exn) :
  extractNodeMeta wrap src node = Throw e -> isTypeError e.
Proof.
  unfold extractNodeMeta.
  destruct (extractNodeTypes (m_type node)) as [ts|e'] eqn:Hts; cbn; [done|].
  intros [= <-]. by apply extractNodeTypes_Throw in Hts.
Qed.

Lemma push_members_Throw (wrap : string -> nat -> string) (src : string)
    (members : list MemberNode) (acc : list FieldMeta) (e : exn) :
  forOf (fun param params =>
           meta ← extractNodeMeta wrap src param; mret (params ++ [meta]))
        members acc = Throw e ->
  isTypeError e.
Proof.
  intros H. apply forOf_Throw in H as (param & params & _ & H).
  destruct (extractNodeMeta wrap src param) as [meta|e'] eqn:Hmeta; cbn in H; [done|].
  injection H as <-. by apply extractNodeMeta_Throw in Hmeta.
Qed.

Lemma extractConstructor_Throw (wrap : string -> nat -> string) (src : string)
    (member : ConstructorNode) (e : exn) :
  extractConstructor wrap src member = Throw e -> isTypeError e.
Proof.
  unfold extractConstructor.
  destruct (forOf _ (c_parameters member) []) as [params|e'] eqn:Hloop; cbn; [done|].
  intros [= <-]. by apply push_members_Throw in Hloop.
Qed.

Lemma extractDeclaration_Throw (wrap : string -> nat -> string) (src : string)
    (declaration : Declaration) (e : exn) :
  extractDeclaration wrap src declaration = Throw e -> isTypeError e.
Proof.
  destruct declaration as [iNode|classNode|functionNode]; cbn.
  - unfold extractInterface.
    destruct (forOf _ (i_members iNode) []) as [props|e'] eqn:Hloop; cbn; [done|].
    intros [= <-]. apply forOf_Throw in Hloop as ([member|kind] & props & _ & H);
      cbn in H; [|done].
    destruct (extractNodeMeta wrap src member) as [meta|e''] eqn:Hmeta; cbn in H; [done|].
    injection H as <-. by apply extractNodeMeta_Throw in Hmeta.
  - class_name classNode; [|by intros [= <-]].
    destruct (forOf _ (cl_members classNode) _) as [[ctor props]|e'] eqn:Hloop;
      cbn; [done|].
    intros [= <-].
    apply forOf_Throw in Hloop as ([member|member|kind] & [ctor props] & _ & H);
      cbn in H; [| |done].
    + destruct (extractConstructor wrap src member) as [meta|e''] eqn:Hmeta;
        cbn in H; [done|].
      injection H as <-. by apply extractConstructor_Throw in Hmeta.
    + destruct (extractNodeMeta wrap src member) as [meta|e''] eqn:Hmeta;
        cbn in H; [done|].
      injection H as <-. by apply extractNodeMeta_Throw in Hmeta.
  - function_name functionNode; [|by intros [= <-]].
    destruct (extractNodeTypes (f_type functionNode)) as [ts|e'] eqn:Hts; cbn.
    + destruct (forOf _ (f_parameters functionNode) []) as [params|e'] eqn:Hloop;
        cbn; [done|].
      intros [= <-]. by apply push_members_Throw in Hloop.
    + intros [= <-]. by apply extractNodeTypes_Throw in Hts.
Qed.

Lemma extractStructure_statement_Throw (wrap : string -> nat -> string) (src : string)
    (statement : Node) (sourceMeta : list StructureEntry) (e : exn) :
  extractStructure_statement wrap src statement sourceMeta = Throw e ->
  raisedBy wrap src statement e.
Proof.
  destruct statement as [| |iNode|classNode|functionNode|name [body|]|kind]; cbn;
    try done.
  - by destruct (extractInterface wrap src iNode); cbn; [|intros [= <-]].
  - by destruct (extractClass wrap src classNode); cbn; [|intros [= <-]].
  - by destruct (extractFunction wrap src functionNode); cbn; [|intros [= <-]].
  - by destruct (extractStructure wrap src body None); cbn; [|intros [= <-]].
  - by intros [= <-].
Qed.

(** C7: the walker raises its error on every node that is neither a source
    file nor a module block (1). On a source file or module block its own
    check raises nothing: an error it ends with was raised while one of
    its statements was processed (2), and it is never the error of the
    guard when the module declarations below have module blocks as bodies
    (3). An error of the walker invoked on the body of a module declaration
    is not caught: the invocation on the enclosing container ends with the
    same error (4). *)
Theorem extractStructure_guard (wrap : string -> nat -> string) (src : string)
    (node : Node) (sourceMeta : option (list StructureEntry)) :
  (isContainer node = false ->
   extractStructure wrap src node sourceMeta =
   Throw (Error "node kind must be either SourceFile or ModuleBlock.")) /\
  (isContainer node = true ->
   forall e, extractStructure wrap src node sourceMeta = Throw e ->
             exists statement, statement ∈ statementsOf node /\
                               raisedBy wrap src statement e) /\
  (containerOk node = true ->
   forall message, extractStructure wrap src node sourceMeta ≠ Throw (Error message)) /\
  (isContainer node = true ->
   forall before name body after done_ e,
     statementsOf node = before ++ ModuleDeclaration name (Some body) :: after ->
     forOf (extractStructure_statement wrap src) before (default [] sourceMeta) =
       Ok done_ ->
     extractStructure wrap src body None = Throw e ->
     extractStructure wrap src node sourceMeta = Throw e).
Proof.
  split; [apply extractStructure_not_container|]. split; [|split].
  - intros Hnode e. rewrite extractStructure_container by done. intros H.
    apply forOf_Throw in H as (statement & acc & Hin & H).
    exists statement. split; [done|]. by eapply extractStructure_statement_Throw.
  - intros Hok message H.
    rewrite (proj2 (walker_spliced wrap src node) Hok sourceMeta) in H.
    destruct (mapM _ (recognized node)) as [es|e] eqn:Hes; cbn in H; [done|].
    injection H as ->. apply mapM_result_Throw in Hes as (declaration & _ & Hd).
    by apply extractDeclaration_Throw in Hd.
  - intros Hnode before name body after done_ e Hstatements Hbefore Hbody.
    rewrite extractStructure_container, Hstatements, forOf_app, Hbefore by done.
    cbn. by rewrite Hbody.
Qed.

Lemma extractStructure_guard_witness :
  extractStructure (fun s _ => s) "" (ModuleDeclaration "B" (Some (ModuleBlock []))) None =
    Throw (Error "node kind must be either SourceFile or ModuleBlock.") /\
  extractStructure (fun s _ => s) "" dottedNamespace None =
    Throw (Error "node kind must be either SourceFile or ModuleBlock.") /\
  forall message,
    extractStructure (fun s _ => s) "" sampleTree None ≠ Throw (Error message).
Proof.
  split; [|split].
  - exact (proj1 (extractStructure_guard (fun s _ => s) ""
                    (ModuleDeclaration "B" (Some (ModuleBlock []))) None) eq_refl).
  - exact (proj2 (proj2 (proj2 (extractStructure_guard (fun s _ => s) ""
                    dottedNamespace None))) eq_refl
             [InterfaceDeclaration (mkInterfaceNode "I" [])] "A"
             (ModuleDeclaration "B" (Some (ModuleBlock []))) []
             [("Interface", InterfaceMeta "I" [])] _ eq_refl eq_refl eq_refl).
  - exact (proj1 (proj2 (proj2 (extractStructure_guard (fun s _ => s) ""
                    sampleTree None))) eq_refl).
Defined.

(** ** The rendering *)

Lemma endsLF_app (s1 s2 : string) : endsLF s1 -> emptyOrEndsLF s2 -> endsLF (s1 +:+ s2).
Proof.
  intros [t1 ->] [-> | [t2 ->]].
  - exists t1. by rewrite sapp_nil_r.
  - exists ((t1 +:+ LF) +:+ t2). by rewrite !sapp_assoc.
Qed.

Lemma emptyOrEndsLF_app (s1 s2 : string) :
  emptyOrEndsLF s1 -> emptyOrEndsLF s2 -> emptyOrEndsLF (s1 +:+ s2).
Proof.
  intros [-> | H1] H2; [done|]. right. by apply endsLF_app.
Qed.

Lemma endsLF_prefix (s1 s2 : string) : endsLF s2 -> endsLF (s1 +:+ s2).
Proof. intros [t ->]. exists (s1 +:+ t). by rewrite sapp_assoc. Qed.

Lemma addParamsToMarkdown_endsLF (params : list FieldMeta) :
  emptyOrEndsLF (addParamsToMarkdown params).
Proof.
  destruct params as [|param params] using rev_ind; [by left|]. right.
  unfold addParamsToMarkdown. rewrite foldl_app. cbn [foldl].
  destruct param as [paramName paramMeta]. eexists. reflexivity.
Qed.

Lemma sections_endLF (meta : Metadata) :
  emptyOrEndsLF
    (constructorSection meta +:+ parametersSection meta +:+ propertiesSection meta).
Proof.
  repeat apply emptyOrEndsLF_app.
  - unfold constructorSection. destruct (meta_constructorMeta meta) as [c|]; [|by left].
    right. rewrite <- !sapp_assoc. apply endsLF_app; [by eexists|].
    apply addParamsToMarkdown_endsLF.
  - unfold parametersSection. destruct (meta_params meta) as [[|param params]|];
      [right|right|by left].
    + exists (LF +:+ "### Parameters"). by rewrite sapp_assoc.
    + rewrite <- !sapp_assoc. apply endsLF_app; [by eexists|].
      apply addParamsToMarkdown_endsLF.
  - unfold propertiesSection. destruct (meta_props meta) as [[|prop props]|];
      [by left|right|by left].
    rewrite <- !sapp_assoc. apply endsLF_app; [by eexists|].
    apply addParamsToMarkdown_endsLF.
Qed.

Lemma renderEntry_truthy (entry : StructureEntry) : JS.truthy (renderEntry entry) = true.
Proof. by destruct entry. Qed.

(** One round of the loop appends the text of the entry, after a line feed
    when something was rendered before. *)
Lemma toMarkdown_entry_render (markdown : string) (entry : StructureEntry) :
  toMarkdown_entry markdown entry =
  (if JS.truthy markdown then markdown +:+ LF else markdown) +:+ renderEntry entry.
Proof.
  destruct entry as [kind meta].
  unfold toMarkdown_entry, renderEntry, headingLine, constructorSection,
    parametersSection, propertiesSection. cbn [fst snd].
  generalize (if JS.truthy markdown then markdown +:+ LF else markdown) as m.
  intros m.
  destruct (meta_constructorMeta meta) as [c|];
    destruct (meta_params meta) as [[|param params]|];
    destruct (meta_props meta) as [[|prop props]|];
    cbn [length Nat.ltb Nat.leb]; rewrite ?sapp_assoc, ?sapp_nil_l, ?sapp_nil_r;
    reflexivity.
Qed.

Lemma toMarkdown_loop (structure : list StructureEntry) (markdown : string) :
  structure ≠ [] ->
  foldl toMarkdown_entry markdown structure =
  (if JS.truthy markdown then markdown +:+ LF else markdown) +:+
  JS.Array_join LF (map renderEntry structure).
Proof.
  revert markdown. induction structure as [|entry structure IH]; [done|].
  intros markdown _. cbn [foldl]. rewrite toMarkdown_entry_render.
  destruct structure as [|entry' structure]; [done|].
  rewrite IH by done.
  rewrite truthy_app_r by apply renderEntry_truthy.
  change (JS.Array_join LF (map renderEntry (entry :: entry' :: structure)))
    with (renderEntry entry +:+ LF +:+
          JS.Array_join LF (map renderEntry (entry' :: structure))).
  by rewrite !sapp_assoc.
Qed.

(** The rendered text is the texts of the entries joined by one line feed,
    and each of them starts with its heading and ends with a line feed. *)
Lemma toMarkdown_layout (structure : list StructureEntry) :
  toMarkdown structure = JS.Array_join LF (map renderEntry structure) /\
  (forall entry, exists text,
     renderEntry entry = "## " +:+ entry.1 +:+ ": " +:+ meta_name entry.2 +:+ text /\
     endsLF text).
Proof.
  split.
  - destruct structure as [|entry structure]; [done|].
    unfold toMarkdown. by rewrite toMarkdown_loop.
  - intros [kind meta].
    exists (LF +:+ constructorSection meta +:+ parametersSection meta +:+
            propertiesSection meta).
    split; [unfold renderEntry, headingLine; cbn [fst snd]; by rewrite !sapp_assoc|].
    apply endsLF_app; [by exists ""|apply sections_endLF].
Qed.

(** C6: the entries are not always separated by a single blank line. The
    section of a constructor starts with the block of its comments also
    when it has none, the test of [comments] being one of an array: it is
    then three line feeds over the bullets of the parameters. So after a
    class whose constructor has neither comment nor parameter, and which
    has no property, four blank lines stand before the next entry. *)
Theorem toMarkdown_constructor_blank_lines (wrap : string -> nat -> string) :
  (forall kind name params props,
     toMarkdown [(kind, ClassMeta name (Some (mkConstructorMeta params [])) props)] =
     ("## " +:+ kind +:+ ": " +:+ name +:+ LF) +:+
     (LF +:+ LF +:+ LF +:+ addParamsToMarkdown params) +:+
     propertiesSection (ClassMeta name (Some (mkConstructorMeta params [])) props)) /\
  JS.slice bareConstructorSource 9 26 = " constructor() {}" /\
  extractStructure wrap bareConstructorSource bareConstructorTree None =
    Ok [("Class", ClassMeta "K" (Some (mkConstructorMeta [] [])) []);
        ("Interface", InterfaceMeta "E" [])] /\
  (structure ← extractStructure wrap bareConstructorSource bareConstructorTree None;
   mret (toMarkdown structure)) =
  Ok ("## Class: K" +:+ LF +:+
      LF +:+
      LF +:+
      LF +:+
      LF +:+
      "## Interface: E" +:+ LF).
Proof.
  split; [|repeat split; vm_compute; reflexivity].
  intros kind name params props. unfold toMarkdown. cbn [foldl].
  rewrite toMarkdown_entry_render. cbn [JS.truthy].
  by rewrite sapp_nil_l.
Qed.

(** ** The [types] of the members of a declaration *)

Lemma forOf_invariant {A S : Type} (body : A -> S -> result S)
    (Q : A -> Prop) (I : S -> Prop) (l : list A) (s s' : S) :
  (forall x s s', Q x -> I s -> body x s = Ok s' -> I s') ->
  Forall Q l -> I s -> forOf body l s = Ok s' -> I s'.
Proof.
  intros Hstep Hall. revert s.
  induction Hall as [|x l Hx _ IH]; intros s Hs; cbn.
  - by intros [= <-].
  - destruct (body x s) as [s1|e] eqn:Hbody; [|done]. apply IH. by eapply Hstep.
Qed.

Lemma extractNodeMeta_nonempty (wrap : string -> nat -> string) (src : string)
    (node : MemberNode) (field : FieldMeta) :
  unionsNonEmpty node ->
  extractNodeMeta wrap src node = Ok field -> typesNonEmpty field.
Proof.
  intros Hunion Hok. destruct field as [name info].
  apply extractNodeMeta_Ok_inv in Hok. unfold typesNonEmpty. cbn.
  destruct (m_type node) as [type|] eqn:Hty; [|done].
  specialize (Hunion type Hty).
  destruct (ty_types type) as [members|] eqn:Hmembers.
  - rewrite (extractNodeTypes_union _ _ Hmembers) in Hok.
    injection Hok as <-. by destruct members.
  - rewrite (extractNodeTypes_single _ Hmembers) in Hok.
    by injection Hok as <-.
Qed.

Lemma push_members_nonempty (wrap : string -> nat -> string) (src : string)
    (members : list MemberNode) (acc acc' : list FieldMeta) :
  Forall unionsNonEmpty members -> Forall typesNonEmpty acc ->
  forOf (fun param params =>
           meta ← extractNodeMeta wrap src param; mret (params ++ [meta]))
        members acc = Ok acc' ->
  Forall typesNonEmpty acc'.
Proof.
  intros Hmembers. apply forOf_invariant with (Q := unionsNonEmpty); [|done].
  intros node params params' Hnode Hparams.
  destruct (extractNodeMeta wrap src node) as [meta|e] eqn:Hmeta; cbn; [|done].
  intros [= <-]. apply Forall_app. split; [done|].
  constructor; [|done]. by eapply extractNodeMeta_nonempty.
Qed.

Lemma extractDeclaration_nonempty (wrap : string -> nat -> string) (src : string)
    (declaration : Declaration) (entry : StructureEntry) :
  Forall unionsNonEmpty (membersOf declaration) ->
  extractDeclaration wrap src declaration = Ok entry ->
  Forall typesNonEmpty (fieldsOf entry.2).
Proof.
  destruct declaration as [iNode|classNode|functionNode]; cbn [membersOf];
    intros Hmembers; cbn [extractDeclaration].
  - unfold extractInterface.
    destruct (forOf _ (i_members iNode) []) as [props|e] eqn:Hloop; cbn; [|done].
    intros [= <-]. cbn. revert Hloop.
    apply forOf_invariant
      with (Q := fun member => Forall unionsNonEmpty (interfaceMemberNodes member));
      [|by apply Forall_flat_map|done].
    intros [member|kind] acc acc' Hnode Hacc; cbn; [|by intros [= <-]].
    destruct (extractNodeMeta wrap src member) as [meta|e] eqn:Hmeta; cbn; [|done].
    intros [= <-]. apply Forall_app. split; [done|].
    constructor; [|done]. apply Forall_inv in Hnode.
    by eapply extractNodeMeta_nonempty.
  - class_name classNode; [|done].
    destruct (forOf _ (cl_members classNode) _) as [[ctor props]|e] eqn:Hloop;
      cbn; [|done].
    intros [= <-]. cbn.
    enough (Forall typesNonEmpty (fieldsOf (ClassMeta "" ctor props))) by done.
    revert Hloop.
    apply (forOf_invariant (extractClass_member wrap src)
             (fun member => Forall unionsNonEmpty (classMemberNodes member))
             (fun state => Forall typesNonEmpty (fieldsOf (ClassMeta "" state.1 state.2))));
      [|by apply Forall_flat_map|by cbn].
    intros [member|member|kind] [ctor0 props0] [ctor1 props1] Hnode Hacc; cbn in *.
    + unfold extractConstructor.
      destruct (forOf _ (c_parameters member) []) as [params|e] eqn:Hparams;
        cbn; [|done].
      intros [= <- <-]. cbn. apply Forall_app in Hacc as [_ Hprops].
      apply Forall_app. split; [|done].
      by apply (push_members_nonempty wrap src (c_parameters member) [] params).
    + destruct (extractNodeMeta wrap src member) as [meta|e] eqn:Hmeta; cbn; [|done].
      intros [= <- <-]. rewrite app_assoc. apply Forall_app. split; [done|].
      constructor; [|done]. apply Forall_inv in Hnode.
      by eapply extractNodeMeta_nonempty.
    + by intros [= <- <-].
  - function_name functionNode; [|done].
    destruct (extractNodeTypes (f_type functionNode)) as [ts|e]; cbn; [|done].
    destruct (forOf _ (f_parameters functionNode) []) as [params|e] eqn:Hloop;
      cbn; [|done].
    intros [= <-]. cbn.
    by apply (push_members_nonempty wrap src (f_parameters functionNode) [] params).
Qed.

(** C9: the [types] of every extracted member is not empty: a single
    annotation gives one element, a union one element per member, and the
    parser builds no union without members. A member with a type annotation
    is always extracted. So it is for every field of the metadata of an
    interface, a class (properties and constructor parameters) or a
    function. *)
Theorem types_nonempty (wrap : string -> nat -> string) (src : string) :
  (forall node,
     unionsNonEmpty node ->
     (forall field, extractNodeMeta wrap src node = Ok field -> types field.2 ≠ []) /\
     (typed node ->
      exists info, extractNodeMeta wrap src node = Ok (m_name node, info) /\
                   types info ≠ [])) /\
  (forall declaration entry,
     Forall unionsNonEmpty (membersOf declaration) ->
     extractDeclaration wrap src declaration = Ok entry ->
     Forall (fun field => types field.2 ≠ []) (fieldsOf entry.2)).
Proof.
  split.
  - intros node Hunion. split.
    + intros field. by apply extractNodeMeta_nonempty.
    + intros Htyped. destruct (extractNodeMeta_Some wrap src node Htyped) as [field Hfield].
      pose proof (extractNodeMeta_nonempty _ _ _ _ Hunion Hfield) as Hne.
      pose proof Hfield as Hname. destruct field as [name info].
      unfold extractNodeMeta in Hname.
      destruct (extractNodeTypes (m_type node)); cbn in Hname; [|done].
      injection Hname as <- _. by exists info.
  - intros declaration entry. apply extractDeclaration_nonempty.
Qed.

Lemma types_nonempty_witness :
  exists info,
    extractNodeMeta (fun s _ => s) "count?: number | string[]"
      (mkMemberNode (Some "count") true
         (Some (unionType [keywordType "NumberKeyword"; keywordType "ArrayType"])) 0 25) =
    Ok (Some "count", info) /\ types info ≠ [].
Proof.
  refine (proj2 (proj1 (types_nonempty (fun s _ => s) "count?: number | string[]")
            (mkMemberNode (Some "count") true
               (Some (unionType [keywordType "NumberKeyword"; keywordType "ArrayType"]))
               0 25) _) _).
  - intros type [= <-]. discriminate.
  - by eexists.
Defined.

(** ** The example of the documentation *)

Example example_rendering (wrap : string -> nat -> string) :
  JS.slice exampleSource 19 56 =
    LF +:+ "  // Unique identifier." +:+ LF +:+ "  id: string" /\
  JS.slice exampleSource 56 96 =
    LF +:+ "  // Occurrence count." +:+ LF +:+ "  count?: number" /\
  (structure ← extractStructure wrap exampleSource exampleTree None;
   mret (toMarkdown structure)) =
  Ok ("## Interface: Example" +:+ LF +:+
      LF +:+
      "### Properties" +:+ LF +:+
      LF +:+
      "- **`id`**: **string**" +:+ LF +:+
      "  Unique identifier." +:+ LF +:+
      "- **`count`**: **number** (optional)" +:+ LF +:+
      "  Occurrence count." +:+ LF).
Proof. repeat split; vm_compute; reflexivity. Qed.

(** ** Further properties of the resolver *)

(** X1: the resolver descends two segments at a time, so a name with an odd
    number of segments is always resolved to its dotted name; with an even
    number and an empty first identifier the dot after that identifier is
    left out. *)
Theorem extractTypeName_parity (typeName : EntityName) :
  (leftmost typeName ≠ "" \/ Nat.Odd (length (segments typeName)) ->
   extractTypeName typeName = dottedName typeName) /\
  (leftmost typeName = "" -> Nat.Even (length (segments typeName)) ->
   dottedName typeName = "." +:+ extractTypeName typeName).
Proof.
  enough (forall n,
    ((leftmost n ≠ "" \/ Nat.Odd (length (segments n)) ->
      extractTypeName n = dottedName n) /\
     (leftmost n = "" -> Nat.Even (length (segments n)) ->
      dottedName n = "." +:+ extractTypeName n)) /\
    forall r,
      (leftmost n ≠ "" \/ Nat.Odd (length (segments (QualifiedName n r))) ->
       extractTypeName (QualifiedName n r) = dottedName (QualifiedName n r)) /\
      (leftmost n = "" -> Nat.Even (length (segments (QualifiedName n r))) ->
       dottedName (QualifiedName n r) = "." +:+ extractTypeName (QualifiedName n r)))
    as H by apply H.
  induction n as [s|l IH r0].
  - split; [split|].
    + intros _. apply extractTypeName_Identifier_id.
    + cbn. intros _ [k Hk]. lia.
    + intros r. cbn [leftmost segments length app]. split.
      * intros [Hne | [k Hk]]; [|lia].
        apply truthy_ne in Hne. cbn [extractTypeName].
        change (JS.truthy "") with false. cbv iota.
        rewrite sapp_nil_l, Hne. by rewrite sapp_assoc.
      * intros -> _. reflexivity.
  - destruct IH as [[IHa IHb] IHq]. split; [apply IHq|].
    intros r. rewrite extractTypeName_qualified_step.
    assert (dottedName (QualifiedName (QualifiedName l r0) r) =
            dottedName l +:+ "." +:+ r0 +:+ "." +:+ r) as ->.
    { unfold dottedName. cbn [segments].
      rewrite !Array_join_snoc; [|apply segments_ne|by destruct (segments l)].
      by rewrite !sapp_assoc. }
    cbn [leftmost segments]. rewrite !length_app. cbn [length]. split.
    + intros H. rewrite IHa; [done|].
      destruct H as [H | [k Hk]]; [by left|right]. exists (k - 1). lia.
    + intros Hl [k Hk]. rewrite IHb; [by rewrite !sapp_assoc|done|].
      exists (k - 1). lia.
Qed.

Lemma extractTypeName_parity_witness :
  extractTypeName (QualifiedName (QualifiedName (Identifier "") "B") "C") = ".B.C" /\
  "." +:+ extractTypeName (QualifiedName (Identifier "") "B") = ".B".
Proof.
  split.
  - exact (proj1 (extractTypeName_parity
             (QualifiedName (QualifiedName (Identifier "") "B") "C"))
             (or_intror (ex_intro _ 1 eq_refl))).
  - symmetry.
    exact (proj2 (extractTypeName_parity (QualifiedName (Identifier "") "B"))
             eq_refl (ex_intro _ 1 eq_refl)).
Defined.

(** ** Further properties of the extractors *)

(** A loop that pushes, for each item, the results of [f] on the members
    [g] selects from it, is [mapM f] over all selected members. *)
Lemma forOf_flat_mapM {A B C : Type} (body : A -> list C -> result (list C))
    (f : B -> result C) (g : A -> list B) (items : list A) (acc : list C) :
  (forall x acc, body x acc = ys ← mapM f (g x); mret (acc ++ ys)) ->
  forOf body items acc = ys ← mapM f (flat_map g items); mret (acc ++ ys).
Proof.
  intros Hbody. revert acc. induction items as [|x items IH]; intros acc.
  - cbn. by rewrite app_nil_r.
  - cbn [forOf flat_map]. rewrite Hbody, mapM_result_app.
    destruct (mapM f (g x)) as [ys|e]; [|done].
    rewrite !bind_Ok. change (mret ?x) with (Ok x) at 1. cbv beta iota.
    rewrite IH. destruct (mapM f (flat_map g items)) as [zs|e]; [|done].
    cbn. by rewrite app_assoc.
Qed.

Lemma flat_map_single {A : Type} (l : list A) : flat_map (fun x => [x]) l = l.
Proof. induction l as [|x l IH]; [done|]. cbn. by rewrite IH. Qed.

Lemma push_members_mapM (wrap : string -> nat -> string) (src : string)
    (members : list MemberNode) (acc : list FieldMeta) :
  forOf (fun param params =>
           meta ← extractNodeMeta wrap src param; mret (params ++ [meta]))
        members acc =
  metas ← mapM (extractNodeMeta wrap src) members; mret (acc ++ metas).
Proof.
  rewrite (forOf_flat_mapM _ (extractNodeMeta wrap src) (fun member => [member])).
  - by rewrite flat_map_single.
  - intros member params. cbn.
    by destruct (extractNodeMeta wrap src member).
Qed.

Lemma extractNodeTypes_typesOf (type : TypeNode) :
  extractNodeTypes (Some type) = Ok (typesOf type).
Proof.
  unfold typesOf. destruct (ty_types type) as [members|] eqn:Hmembers.
  - by apply extractNodeTypes_union.
  - by apply extractNodeTypes_single.
Qed.

(** X2: a member without type annotation raises the [TypeError] of the
    access to its types; a member with one is extracted, with the text of
    its name ([undefined] when the name is no identifier), optional exactly
    when the node has a question token, with one bare name for each member
    of a union, in the order of the members and with duplicates kept, or
    the one name of a single annotation in an array of its own, and with
    the comments scanned over the span of the node. *)
Theorem extractNodeMeta_fields (wrap : string -> nat -> string) (src : string)
    (node : MemberNode) :
  (m_type node = None ->
   extractNodeMeta wrap src node =
   Throw (TypeError "Cannot read properties of undefined (reading 'types')")) /\
  (forall type, m_type node = Some type ->
     extractNodeMeta wrap src node =
     Ok (m_name node,
         {| optional := m_questionToken node;
            types :=
              match ty_types type with
              | Some members => map (fun member => Name (resolveType member)) members
              | None => [Names [resolveType type]]
              end;
            comments :=
              scanLines (JS.splitLines (JS.slice src (m_pos node) (m_end node)))
                        [] false false |})).
Proof.
  split.
  - intros Hnone. unfold extractNodeMeta. by rewrite Hnone.
  - intros type Hsome. apply extractNodeMeta_typed. rewrite Hsome.
    apply extractNodeTypes_typesOf.
Qed.

Lemma extractNodeMeta_fields_witness :
  extractNodeMeta (fun s _ => s) "x"
    (mkMemberNode (Some "x") true None 0 1) =
  Throw (TypeError "Cannot read properties of undefined (reading 'types')") /\
  extractNodeMeta (fun s _ => s) "" literalNamedProperty =
  Ok (None,
      {| optional := true;
         types := [Name (Some "string"); Name (Some "number"); Name (Some "string")];
         comments := [] |}).
Proof.
  split.
  - exact (proj1 (extractNodeMeta_fields (fun s _ => s) "x"
                    (mkMemberNode (Some "x") true None 0 1)) eq_refl).
  - exact (proj2 (extractNodeMeta_fields (fun s _ => s) "" literalNamedProperty)
             _ eq_refl).
Defined.

(** X3: the properties of an interface are the fields of its property
    signatures, in member order; members of other kinds are skipped, and
    the first property signature that cannot be extracted gives the error
    of the interface. *)
Theorem extractInterface_props (wrap : string -> nat -> string) (src : string)
    (iNode : InterfaceNode) :
  extractInterface wrap src iNode =
  props ← mapM (extractNodeMeta wrap src)
               (flat_map interfaceMemberNodes (i_members iNode));
  mret (InterfaceMeta (i_name iNode) props).
Proof.
  unfold extractInterface.
  rewrite (forOf_flat_mapM _ (extractNodeMeta wrap src) interfaceMemberNodes).
  - by destruct (mapM _ _).
  - intros [member|kind] acc; cbn.
    + by destruct (extractNodeMeta wrap src member).
    + by rewrite app_nil_r.
Qed.

(** X4: the metadata of a constructor holds the fields of its parameters,
    in order, and the comments scanned over the span of the constructor
    itself; it is an error exactly when a parameter cannot be extracted. *)
Theorem extractConstructor_params (wrap : string -> nat -> string) (src : string)
    (member : ConstructorNode) :
  extractConstructor wrap src member =
  params ← mapM (extractNodeMeta wrap src) (c_parameters member);
  mret {| ctor_params := params;
          ctor_comments :=
            scanLines (JS.splitLines (JS.slice src (c_pos member) (c_end member)))
                      [] false false |}.
Proof.
  unfold extractConstructor, FieldMeta. rewrite push_members_mapM.
  by destruct (mapM _ _).
Qed.

(** X5: a function without name raises the [TypeError] of the access to
    the text of its name, before anything else is read; a function with a
    name and without return type annotation raises the [TypeError] of the
    access to its types, whatever its parameters; otherwise its return
    types are those of the annotation and its parameters are extracted in
    order, the first that cannot be extracted giving the error. *)
Theorem extractFunction_form (wrap : string -> nat -> string) (src : string)
    (functionNode : FunctionNode) :
  (f_name functionNode = None ->
   extractFunction wrap src functionNode =
   Throw (TypeError "Cannot read properties of undefined (reading 'escapedText')")) /\
  (is_Some (f_name functionNode) -> f_type functionNode = None ->
   extractFunction wrap src functionNode =
   Throw (TypeError "Cannot read properties of undefined (reading 'types')")) /\
  (forall name type,
     f_name functionNode = Some name -> f_type functionNode = Some type ->
     extractFunction wrap src functionNode =
     params ← mapM (extractNodeMeta wrap src) (f_parameters functionNode);
     mret (FunctionMeta name params (typesOf type))).
Proof.
  split; [apply extractFunction_unnamed|]. split.
  - intros [name Hname] Hnone.
    by rewrite (extractFunction_named _ _ _ _ Hname), Hnone.
  - intros name type Hname Hsome.
    rewrite (extractFunction_named _ _ _ _ Hname), Hsome, extractNodeTypes_typesOf.
    rewrite bind_Ok. unfold FieldMeta. rewrite push_members_mapM.
    by destruct (mapM _ _).
Qed.

Lemma extractFunction_form_witness :
  extractFunction (fun s _ => s) "" unnamedFunction =
    Throw (TypeError "Cannot read properties of undefined (reading 'escapedText')") /\
  extractFunction (fun s _ => s) ""
    (mkFunctionNode (Some "f")
       [mkMemberNode (Some "a") false (Some (keywordType "StringKeyword")) 0 0] None) =
    Throw (TypeError "Cannot read properties of undefined (reading 'types')") /\
  extractFunction (fun s _ => s) ""
    (mkFunctionNode (Some "f")
       [mkMemberNode (Some "a") false (Some (keywordType "StringKeyword")) 0 0]
       (Some (keywordType "BooleanKeyword"))) =
  Ok (FunctionMeta "f"
        [(Some "a", {| optional := false; types := [Names [Some "string"]];
                       comments := [] |})]
        [Names [Some "boolean"]]).
Proof.
  split; [|split].
  - exact (proj1 (extractFunction_form (fun s _ => s) "" unnamedFunction) eq_refl).
  - refine (proj1 (proj2 (extractFunction_form (fun s _ => s) ""
             (mkFunctionNode (Some "f")
                [mkMemberNode (Some "a") false (Some (keywordType "StringKeyword")) 0 0]
                None))) _ eq_refl).
    by eexists.
  - rewrite (proj2 (proj2 (extractFunction_form (fun s _ => s) ""
             (mkFunctionNode (Some "f")
                [mkMemberNode (Some "a") false (Some (keywordType "StringKeyword")) 0 0]
                (Some (keywordType "BooleanKeyword")))))
             "f" (keywordType "BooleanKeyword") eq_refl eq_refl).
    vm_compute. reflexivity.
Defined.

Lemma class_loop_props (wrap : string -> nat -> string) (src : string)
    (members : list ClassMember) (ctor ctor' : option ConstructorMeta)
    (props props' : list FieldMeta) :
  forOf (extractClass_member wrap src) members (ctor, props) = Ok (ctor', props') ->
  exists metas,
    mapM (extractNodeMeta wrap src) (propertyDeclarations members) = Ok metas /\
    props' = props ++ metas.
Proof.
  revert ctor props. induction members as [|member members IH]; intros ctor props.
  - cbn. intros [= <- <-]. exists []. by rewrite app_nil_r.
  - cbn [forOf]. destruct member as [c|p|k]; cbn.
    + destruct (extractConstructor wrap src c) as [meta|e]; cbn; [|done]. apply IH.
    + destruct (extractNodeMeta wrap src p) as [meta|e] eqn:Hp; cbn; [|done].
      intros H. destruct (IH _ _ H) as (metas & Hmetas & ->).
      exists (meta :: metas). unfold propertyDeclarations in Hmetas.
      rewrite Hmetas. cbn. by rewrite <- app_assoc.
    + apply IH.
Qed.

Lemma class_loop_no_constructor (wrap : string -> nat -> string) (src : string)
    (members : list ClassMember) (ctor : option ConstructorMeta)
    (props : list FieldMeta) :
  Forall (fun member => isConstructor member = false) members ->
  forOf (extractClass_member wrap src) members (ctor, props) =
  metas ← mapM (extractNodeMeta wrap src) (propertyDeclarations members);
  mret (ctor, props ++ metas).
Proof.
  intros Hall. revert props.
  induction Hall as [|member members Hmember _ IH]; intros props.
  - cbn. by rewrite app_nil_r.
  - cbn [forOf]. destruct member as [c|p|k]; [done| |]; cbn.
    + destruct (extractNodeMeta wrap src p) as [meta|e]; cbn; [|done].
      rewrite IH. unfold propertyDeclarations.
      destruct (mapM _ _) as [metas|e]; [|done]. cbn. by rewrite <- app_assoc.
    + apply IH.
Qed.

(** X6: a class without name raises the [TypeError] of the access to the
    text of its name. The properties of an extracted class are the fields
    of its property declarations, in member order, whatever constructors
    stand between them, and its name is the text of the name of the node. A
    class that has a name and no constructor member has no
    [constructorMeta], and is then extracted exactly when its property
    declarations are. *)
Theorem extractClass_props (wrap : string -> nat -> string) (src : string)
    (classNode : ClassNode) :
  (cl_name classNode = None ->
   extractClass wrap src classNode =
   Throw (TypeError "Cannot read properties of undefined (reading 'escapedText')")) /\
  (forall classMeta,
     extractClass wrap src classNode = Ok classMeta ->
     exists props,
       mapM (extractNodeMeta wrap src) (propertyDeclarations (cl_members classNode)) =
         Ok props /\
       meta_props classMeta = Some props /\
       cl_name classNode = Some (meta_name classMeta)) /\
  (forall name,
     cl_name classNode = Some name ->
     Forall (fun member => isConstructor member = false) (cl_members classNode) ->
     extractClass wrap src classNode =
     props ← mapM (extractNodeMeta wrap src)
                  (propertyDeclarations (cl_members classNode));
     mret (ClassMeta name None props)).
Proof.
  split; [apply extractClass_unnamed|]. split.
  - intros classMeta. class_name classNode; [|done].
    destruct (forOf _ (cl_members classNode) _) as [[ctor props]|e] eqn:Hloop;
      cbn; [|done].
    intros [= <-]. apply class_loop_props in Hloop as (metas & Hmetas & ->).
    by exists metas.
  - intros name Hname Hall.
    rewrite (extractClass_loop _ _ _ _ Hname), class_loop_no_constructor by done.
    by destruct (mapM _ _).
Qed.

Lemma extractClass_props_witness :
  extractClass (fun s _ => s) "" unnamedClass =
    Throw (TypeError "Cannot read properties of undefined (reading 'escapedText')") /\
  extractClass (fun s _ => s) ""
    (mkClassNode (Some "K")
       [PropertyDeclaration
          (mkMemberNode (Some "p") false (Some (keywordType "NullKeyword")) 0 0);
        OtherMember "MethodDeclaration";
        PropertyDeclaration
          (mkMemberNode (Some "q") true (Some (keywordType "ObjectKeyword")) 0 0)]) =
  Ok (ClassMeta "K" None
        [(Some "p", {| optional := false; types := [Names [Some "null"]];
                       comments := [] |});
         (Some "q", {| optional := true; types := [Names [Some "object"]];
                       comments := [] |})]).
Proof.
  split.
  - exact (proj1 (extractClass_props (fun s _ => s) "" unnamedClass) eq_refl).
  - rewrite (proj2 (proj2 (extractClass_props (fun s _ => s) ""
                             (mkClassNode (Some "K") _))) "K" eq_refl).
    + vm_compute. reflexivity.
    + repeat constructor.
Defined.

(** The result of the extraction does not depend on the function that
    wraps text: the wrapped comment text is never stored. *)
Theorem extractStructure_wrap_independent (wrap1 wrap2 : string -> nat -> string)
    (src : string) (node : Node) (sourceMeta : option (list StructureEntry)) :
  extractStructure wrap1 src node sourceMeta = extractStructure wrap2 src node sourceMeta.
Proof. reflexivity. Qed.

Lemma extractNodeMeta_Ok_typed (wrap : string -> nat -> string) (src : string)
    (node : MemberNode) (field : FieldMeta) :
  extractNodeMeta wrap src node = Ok field -> typed node.
Proof.
  unfold extractNodeMeta, typed. destruct (m_type node); [by eexists|done].
Qed.

Lemma mapM_members_Ok_iff (wrap : string -> nat -> string) (src : string)
    (members : list MemberNode) :
  (exists fields, mapM (extractNodeMeta wrap src) members = Ok fields) <->
  Forall typed members.
Proof.
  split.
  - intros [fields H]. apply mapM_result_Ok in H.
    induction H as [|node field members fields Hnode _ IH]; constructor; [|done].
    by eapply extractNodeMeta_Ok_typed.
  - induction 1 as [|node members Hnode _ [fields IH]]; [by eexists|].
    destruct (extractNodeMeta_Some wrap src node Hnode) as [field Hfield].
    exists (field :: fields). cbn. by rewrite Hfield, IH.
Qed.

Lemma class_loop_Ok_typed (wrap : string -> nat -> string) (src : string)
    (members : list ClassMember)
    (state state' : option ConstructorMeta * list FieldMeta) :
  forOf (extractClass_member wrap src) members state = Ok state' ->
  Forall typed (flat_map classMemberNodes members).
Proof.
  revert state. induction members as [|member members IH]; intros [ctor props];
    [constructor|].
  cbn [forOf flat_map]. destruct member as [c|p|k]; cbn.
  - unfold extractConstructor, FieldMeta. rewrite push_members_mapM.
    destruct (mapM _ (c_parameters c)) as [params|e] eqn:Hparams; cbn; [|done].
    intros H. apply Forall_app. split; [|by eapply IH].
    apply (mapM_members_Ok_iff wrap src). by eexists.
  - destruct (extractNodeMeta wrap src p) as [field|e] eqn:Hp; cbn; [|done].
    intros H. constructor; [by eapply extractNodeMeta_Ok_typed|by eapply IH].
  - apply IH.
Qed.

Lemma extractDeclaration_Ok_iff (wrap : string -> nat -> string) (src : string)
    (declaration : Declaration) :
  (exists entry, extractDeclaration wrap src declaration = Ok entry) <->
  declarationNamed declaration /\ declarationTyped declaration.
Proof.
  unfold declarationTyped, declarationNamed.
  destruct declaration as [iNode|classNode|functionNode]; cbn [membersOf extractDeclaration].
  - unfold extractInterface.
    rewrite (forOf_flat_mapM _ (extractNodeMeta wrap src) interfaceMemberNodes);
      [|intros [member|kind] acc; cbn;
        [by destruct (extractNodeMeta wrap src member)|by rewrite app_nil_r]].
    rewrite <- (mapM_members_Ok_iff wrap src). split.
    + intros [entry H]. destruct (mapM _ _) as [props|e]; [|done].
      split; [done|]. split; [by eexists|done].
    + intros [_ [[props ->] _]]. by eexists.
  - split.
    + intros [entry H]. destruct (cl_name classNode) as [name|] eqn:Hname;
        [|by rewrite extractClass_unnamed in H].
      split; [by eexists|]. split; [|done].
      rewrite (extractClass_loop _ _ _ _ Hname) in H.
      destruct (forOf _ (cl_members classNode) _) as [state|e] eqn:Hloop; [|done].
      by eapply class_loop_Ok_typed.
    + intros [[name Hname] [Hall _]]. rewrite (extractClass_loop _ _ _ _ Hname).
      destruct (class_loop_typed wrap src (cl_members classNode) (None, []))
        as [[ctor props] ->]; [|by eexists].
      apply Forall_flat_map in Hall. eapply Forall_impl; [exact Hall|].
      intros [c|p|k] Hmember; cbn in *; [done|by apply Forall_inv in Hmember|done].
  - split.
    + intros [entry H]. destruct (f_name functionNode) as [name|] eqn:Hname;
        [|by rewrite extractFunction_unnamed in H].
      split; [by eexists|]. rewrite (extractFunction_named _ _ _ _ Hname) in H.
      unfold FieldMeta in H.
      destruct (f_type functionNode) as [type|] eqn:Hty; [|done].
      destruct (extractNodeTypes (Some type)) as [ts|e]; [|done].
      rewrite bind_Ok, push_members_mapM in H.
      destruct (mapM _ (f_parameters functionNode)) as [params|e] eqn:Hparams; [|done].
      split; [|by eexists]. apply (mapM_members_Ok_iff wrap src). by eexists.
    + intros [[name Hname] [Hall [type Hty]]].
      rewrite (extractFunction_named _ _ _ _ Hname), Hty. unfold FieldMeta.
      destruct (extractNodeTypes_Some type) as [ts ->].
      rewrite bind_Ok, push_members_mapM.
      apply (mapM_members_Ok_iff wrap src) in Hall as [params ->]. by eexists.
Qed.

Lemma mapM_result_length {A B : Type} (f : A -> result B) (l : list A) (k : list B) :
  mapM f l = Ok k -> length k = length l.
Proof. intros H. apply mapM_result_Ok in H. symmetry. by eapply Forall2_length. Qed.

Lemma mapM_result_Ok_iff {A B : Type} (f : A -> result B) (l : list A) :
  (exists k, mapM f l = Ok k) <-> Forall (fun x => exists y, f x = Ok y) l.
Proof.
  split.
  - intros [k H]. apply mapM_result_Ok in H.
    induction H as [|x y l k Hx _ IH]; constructor; [by eexists|done].
  - induction 1 as [|x l [y Hx] _ [k IH]]; [by eexists|].
    exists (y :: k). cbn. by rewrite Hx, IH.
Qed.

Lemma extractNodeMeta_Throw_eq (wrap : string -> nat -> string) (src : string)
    (node : MemberNode) (e : exn) :
  extractNodeMeta wrap src node = Throw e -> e = missingType.
Proof.
  unfold extractNodeMeta, extractNodeTypes.
  destruct (m_type node) as [type|]; [by destruct (ty_types type)|].
  by intros [= <-].
Qed.

Lemma mapM_members_Throw_eq (wrap : string -> nat -> string) (src : string)
    (members : list MemberNode) (e : exn) :
  mapM (extractNodeMeta wrap src) members = Throw e -> e = missingType.
Proof.
  intros H. apply mapM_result_Throw in H as (node & _ & H).
  by eapply extractNodeMeta_Throw_eq.
Qed.

Lemma push_members_Throw_eq (wrap : string -> nat -> string) (src : string)
    (members : list MemberNode) (acc : list FieldMeta) (e : exn) :
  forOf (fun param params =>
           meta ← extractNodeMeta wrap src param; mret (params ++ [meta]))
        members acc = Throw e ->
  e = missingType.
Proof.
  rewrite push_members_mapM.
  destruct (mapM _ members) as [metas|e'] eqn:H; [done|].
  intros [= <-]. by eapply mapM_members_Throw_eq.
Qed.

(** The error of a declaration is the one of its name when it has none,
    and else the one of a missing type annotation. *)
Lemma extractDeclaration_Throw_eq (wrap : string -> nat -> string) (src : string)
    (declaration : Declaration) (e : exn) :
  extractDeclaration wrap src declaration = Throw e ->
  e = missingName /\ ~ declarationNamed declaration \/
  e = missingType /\ declarationNamed declaration.
Proof.
  destruct declaration as [iNode|classNode|functionNode]; cbn.
  - unfold extractInterface.
    destruct (forOf _ (i_members iNode) []) as [props|e'] eqn:Hloop; cbn; [done|].
    intros [= <-]. right. split; [|done].
    apply forOf_Throw in Hloop as ([member|kind] & props & _ & H); cbn in H; [|done].
    destruct (extractNodeMeta wrap src member) as [meta|e''] eqn:Hmeta; cbn in H; [done|].
    injection H as <-. by eapply extractNodeMeta_Throw_eq.
  - class_name classNode.
    + destruct (forOf _ (cl_members classNode) _) as [[ctor props]|e'] eqn:Hloop;
        cbn; [done|].
      intros [= <-]. right. split; [|by eexists].
      apply forOf_Throw in Hloop as ([member|member|kind] & [ctor props] & _ & H);
        cbn in H; [| |done].
      * unfold extractConstructor in H.
        destruct (forOf _ (c_parameters member) []) as [params|e''] eqn:Hparams;
          cbn in H; [done|].
        injection H as <-. by eapply push_members_Throw_eq.
      * destruct (extractNodeMeta wrap src member) as [meta|e''] eqn:Hmeta;
          cbn in H; [done|].
        injection H as <-. by eapply extractNodeMeta_Throw_eq.
    + intros [= <-]. left. split; [done|]. by intros [? ?].
  - function_name functionNode.
    + destruct (extractNodeTypes (f_type functionNode)) as [ts|e'] eqn:Hts; cbn.
      * destruct (forOf _ (f_parameters functionNode) []) as [params|e'] eqn:Hloop;
          cbn; [done|].
        intros [= <-]. right. split; [|by eexists]. by eapply push_members_Throw_eq.
      * intros [= <-]. right. split; [|by eexists].
        unfold extractNodeTypes in Hts.
        destruct (f_type functionNode) as [type|]; [by destruct (ty_types type)|].
        by injection Hts as <-.
    + intros [= <-]. left. split; [done|]. by intros [? ?].
Qed.

Lemma extractDeclaration_walkerError (wrap : string -> nat -> string) (src : string)
    (declaration : Declaration) (e : exn) :
  extractDeclaration wrap src declaration = Throw e -> walkerError e.
Proof.
  intros H. apply extractDeclaration_Throw_eq in H as [[-> _] | [-> _]];
    unfold walkerError; auto.
Qed.

Lemma walker_errors (wrap : string -> nat -> string) (src : string) (node : Node) :
  (forall acc e,
     extractStructure_statement wrap src node acc = Throw e -> walkerError e) /\
  (forall sourceMeta e,
     extractStructure wrap src node sourceMeta = Throw e -> walkerError e).
Proof.
  induction node as [statements IH|statements IH|iNode|classNode|functionNode
                    |name body [_ IH]|name|kind] using Node_nested_ind.
  - split; [done|]. intros sourceMeta e. rewrite extractStructure_container by done.
    intros H. apply forOf_Throw in H as (statement & acc & Hin & H).
    rewrite Forall_forall in IH. by apply (proj1 (IH statement Hin) acc).
  - split; [done|]. intros sourceMeta e. rewrite extractStructure_container by done.
    intros H. apply forOf_Throw in H as (statement & acc & Hin & H).
    rewrite Forall_forall in IH. by apply (proj1 (IH statement Hin) acc).
  - split; [|intros ? ? [= <-]; by left]. intros acc e H.
    apply (extractDeclaration_walkerError wrap src (DInterface iNode)).
    unfold extractStructure_statement in H. unfold extractDeclaration.
    destruct (extractInterface wrap src iNode); cbn in *;
      [by inversion H|by injection H as ->].
  - split; [|intros ? ? [= <-]; by left]. intros acc e H.
    apply (extractDeclaration_walkerError wrap src (DClass classNode)).
    unfold extractStructure_statement in H. unfold extractDeclaration.
    destruct (extractClass wrap src classNode); cbn in *;
      [by inversion H|by injection H as ->].
  - split; [|intros ? ? [= <-]; by left]. intros acc e H.
    apply (extractDeclaration_walkerError wrap src (DFunction functionNode)).
    unfold extractStructure_statement in H. unfold extractDeclaration.
    destruct (extractFunction wrap src functionNode); cbn in *;
      [by inversion H|by injection H as ->].
  - split; [|intros ? ? [= <-]; by left]. intros acc e. cbn.
    destruct (extractStructure wrap src body None) as [inner|e'] eqn:Hbody; cbn; [done|].
    intros [= <-]. by apply (IH None).
  - split; [|intros ? ? [= <-]; by left]. intros acc e. cbn. intros [= <-].
    unfold walkerError. auto.
  - split; [done|]. intros ? ? [= <-]. by left.
Qed.

(** X7: whatever the walker raises is one of four errors: its own, for a
    node that is no container, or the [TypeError] of a property access on
    something missing: the types of a type annotation, the text of the
    name of a class or function, the kind of the body of a module
    declaration. Of a declaration, the error is the one of the name
    exactly when it is a class or function without name, and otherwise the
    one of the types, raised only when a parameter, a property or the
    function itself lacks its type annotation. *)
Theorem extractStructure_errors (wrap : string -> nat -> string) (src : string) :
  (forall node sourceMeta e,
     extractStructure wrap src node sourceMeta = Throw e ->
     e = Error "node kind must be either SourceFile or ModuleBlock." \/
     e = TypeError "Cannot read properties of undefined (reading 'types')" \/
     e = TypeError "Cannot read properties of undefined (reading 'escapedText')" \/
     e = TypeError "Cannot read properties of undefined (reading 'kind')") /\
  (forall declaration e,
     extractDeclaration wrap src declaration = Throw e ->
     e = TypeError "Cannot read properties of undefined (reading 'escapedText')" /\
       ~ declarationNamed declaration \/
     e = TypeError "Cannot read properties of undefined (reading 'types')" /\
       declarationNamed declaration /\ ~ declarationTyped declaration).
Proof.
  split.
  - intros node sourceMeta e H. by apply walker_errors in H.
  - intros declaration e H.
    destruct (extractDeclaration_Throw_eq _ _ _ _ H) as [[-> Hn] | [-> Hn]];
      [by left|right].
    split; [done|]. split; [done|]. intros Ht.
    destruct (proj2 (extractDeclaration_Ok_iff wrap src declaration) (conj Hn Ht))
      as [entry Hentry].
    congruence.
Qed.

Lemma extractStructure_errors_witness :
  extractStructure (fun s _ => s) "" shorthandModule None =
    Throw (TypeError "Cannot read properties of undefined (reading 'kind')") /\
  extractStructure (fun s _ => s) "" defaultExport None =
    Throw (TypeError "Cannot read properties of undefined (reading 'escapedText')") /\
  ~ declarationNamed (DFunction unnamedFunction).
Proof.
  split; [reflexivity|]. split; [reflexivity|].
  destruct (proj2 (extractStructure_errors (fun s _ => s) "")
              (DFunction unnamedFunction) missingName eq_refl)
    as [[_ H] | [H _]]; [exact H|discriminate H].
Defined.

Lemma walker_loop_accumulator {A B : Type} (body : A -> list B -> result (list B))
    (items : list A) (acc : list B) :
  (forall x acc, body x acc = es ← body x []; mret (acc ++ es)) ->
  forOf body items acc = es ← forOf body items []; mret (acc ++ es).
Proof.
  intros Hbody. revert acc. induction items as [|x items IH]; intros acc.
  - cbn. by rewrite app_nil_r.
  - cbn [forOf]. rewrite Hbody. destruct (body x []) as [es1|e]; [|done].
    cbn. rewrite IH, (IH es1).
    destruct (forOf body items []) as [es|e]; [|done]. cbn. by rewrite app_assoc.
Qed.

(** X8: the entries the walker is given in [sourceMeta] are kept, in front
    of the entries of the node, which are the ones it returns when it is
    given none; the error, if any, is the same. *)
Theorem extractStructure_accumulator (wrap : string -> nat -> string) (src : string)
    (node : Node) (sourceMeta : list StructureEntry) :
  extractStructure wrap src node (Some sourceMeta) =
  structure ← extractStructure wrap src node None; mret (sourceMeta ++ structure).
Proof.
  destruct (isContainer node) eqn:Hnode.
  - rewrite !extractStructure_container by done. cbn [default].
    apply walker_loop_accumulator. intros statement acc.
    destruct statement as [| |iNode|classNode|functionNode|name [body|]|kind]; cbn;
      try by rewrite app_nil_r.
    + by destruct (extractInterface wrap src iNode).
    + by destruct (extractClass wrap src classNode).
    + by destruct (extractFunction wrap src functionNode).
    + by destruct (extractStructure wrap src body None).
    + done.
  - by rewrite !extractStructure_not_container.
Qed.

Lemma extractDeclaration_kind (wrap : string -> nat -> string) (src : string)
    (declaration : Declaration) (entry : StructureEntry) :
  extractDeclaration wrap src declaration = Ok entry -> entry.1 = kindOf entry.2.
Proof.
  destruct declaration as [iNode|classNode|functionNode]; cbn.
  - unfold extractInterface. destruct (forOf _ _ _); cbn; [|done]. by intros [= <-].
  - class_name classNode; [|done].
    destruct (forOf _ _ _) as [[ctor props]|]; cbn; [|done].
    by intros [= <-].
  - function_name functionNode; [|done].
    destruct (extractNodeTypes _); cbn; [|done].
    destruct (forOf _ _ _); cbn; [|done]. by intros [= <-].
Qed.

(** X9: in the returned structure the kind of every entry is the one of
    its metadata: [props] without [params] under Interface, [props] and
    [constructorMeta] under Class, [params] and [returnTypes] under
    Function; so also in a structure that extends a well-tagged one. *)
Theorem extractStructure_kinds (wrap : string -> nat -> string) (src : string)
    (node : Node) (sourceMeta : option (list StructureEntry))
    (structure : list StructureEntry) :
  Forall (fun entry => entry.1 = kindOf entry.2) (default [] sourceMeta) ->
  extractStructure wrap src node sourceMeta = Ok structure ->
  Forall (fun entry => entry.1 = kindOf entry.2) structure.
Proof.
  intros Hacc Hok.
  pose proof (proj2 (walker_Ok_blocks wrap src node) _ _ Hok) as Hblocks.
  rewrite (proj2 (walker_spliced wrap src node) Hblocks sourceMeta) in Hok.
  destruct (mapM _ (recognized node)) as [es|e] eqn:Hes; cbn in Hok; [|done].
  injection Hok as <-. apply Forall_app. split; [done|].
  apply mapM_result_Ok in Hes.
  induction Hes as [|declaration entry declarations es Hentry _ IH]; constructor;
    [by eapply extractDeclaration_kind|done].
Qed.

Lemma extractStructure_kinds_witness :
  Forall (fun entry => entry.1 = kindOf entry.2)
    [("Interface", InterfaceMeta "A" []);
     ("Function", FunctionMeta "f" [] [Names [Some "string"]]);
     ("Class", ClassMeta "K" None []);
     ("Interface", InterfaceMeta "Z" [])].
Proof.
  refine (extractStructure_kinds (fun s _ => s) "" sampleTree None _ _ _).
  - constructor.
  - vm_compute. reflexivity.
Defined.

(** X10: the walker returns a structure exactly on a source file or module
    block in which every module declaration has a module block as its body,
    every class and function has a name, and every parameter, property and
    function carries its type annotation; the structure then has one entry
    for each recognized declaration. *)
Theorem extractStructure_succeeds (wrap : string -> nat -> string) (src : string)
    (node : Node) :
  ((exists structure, extractStructure wrap src node None = Ok structure) <->
   containerOk node = true /\
   Forall (fun declaration =>
             declarationNamed declaration /\ declarationTyped declaration)
          (recognized node)) /\
  (forall structure,
     extractStructure wrap src node None = Ok structure ->
     length structure = length (recognized node)).
Proof.
  assert (containerOk node = true ->
          extractStructure wrap src node None =
          mapM (extractDeclaration wrap src) (recognized node)) as Heq.
  { intros Hok. rewrite (proj2 (walker_spliced wrap src node) Hok None).
    by destruct (mapM _ (recognized node)). }
  split; [split|].
  - intros [structure H].
    pose proof (proj2 (walker_Ok_blocks wrap src node) _ _ H) as Hok.
    split; [done|]. rewrite (Heq Hok) in H.
    assert (exists k, mapM (extractDeclaration wrap src) (recognized node) = Ok k)
      as Hk by (by eexists).
    apply mapM_result_Ok_iff in Hk. eapply Forall_impl; [exact Hk|].
    intros declaration. apply extractDeclaration_Ok_iff.
  - intros [Hok Hall]. rewrite (Heq Hok). apply mapM_result_Ok_iff.
    eapply Forall_impl; [exact Hall|].
    intros declaration. apply extractDeclaration_Ok_iff.
  - intros structure H.
    pose proof (proj2 (walker_Ok_blocks wrap src node) _ _ H) as Hok.
    rewrite (Heq Hok) in H. by eapply mapM_result_length.
Qed.

Lemma extractStructure_succeeds_witness :
  (exists structure,
     extractStructure (fun s _ => s) "" sampleTree None = Ok structure) /\
  ~ (exists structure,
       extractStructure (fun s _ => s) "" defaultExport None = Ok structure) /\
  ~ (containerOk dottedNamespace = true /\
     Forall (fun declaration =>
               declarationNamed declaration /\ declarationTyped declaration)
            (recognized dottedNamespace)).
Proof.
  split; [|split].
  - apply (proj1 (extractStructure_succeeds (fun s _ => s) "" sampleTree)).
    split; [reflexivity|]. cbn.
    repeat constructor; by eexists.
  - intros H.
    apply (proj1 (extractStructure_succeeds (fun s _ => s) "" defaultExport)) in H
      as [_ H].
    apply Forall_inv in H as [[name Hname] _]. discriminate Hname.
  - intros H.
    apply (proj1 (extractStructure_succeeds (fun s _ => s) "" dottedNamespace)) in H
      as [structure H].
    discriminate H.
Defined.

(** ** Further properties of the comments *)

Lemma scanLines_length_ge (lines comments : list string) (seenComment lineBreak : bool) :
  length comments <= length (scanLines lines comments seenComment lineBreak).
Proof.
  revert comments seenComment lineBreak.
  induction lines as [|line lines IH]; intros comments seenComment lineBreak; [done|].
  cbn [scanLines]. destruct (JS.commentMatch line) as [text|].
  - etrans; [|apply IH].
    destruct (negb lineBreak && (0 <? length comments)).
    + by rewrite length_alter.
    + rewrite length_app. lia.
  - destruct (JS.blankMatch line); [apply IH|].
    destruct (negb lineBreak && seenComment); [done|apply IH].
Qed.

Lemma scanLines_length_le (lines comments : list string) (seenComment lineBreak : bool) :
  length (scanLines lines comments seenComment lineBreak) <=
  length comments + commentLineCount lines.
Proof.
  revert comments seenComment lineBreak.
  induction lines as [|line lines IH]; intros comments seenComment lineBreak;
    [cbn; lia|].
  unfold commentLineCount in *. cbn [scanLines]. rewrite filter_cons.
  destruct (JS.commentMatch line) as [text|] eqn:Hline.
  - rewrite decide_True by (by eexists). cbn [length].
    etrans; [apply IH|].
    destruct (negb lineBreak && (0 <? length comments)).
    + rewrite length_alter. lia.
    + rewrite length_app. cbn. lia.
  - rewrite decide_False by (by intros [? ?]).
    destruct (JS.blankMatch line); [apply IH|].
    destruct (negb lineBreak && seenComment); [lia|apply IH].
Qed.

Lemma scanLines_nil_iff (lines : list string) (lineBreak : bool) :
  scanLines lines [] false lineBreak = [] <->
  Forall (fun line => JS.commentMatch line = None) lines.
Proof.
  revert lineBreak. induction lines as [|line lines IH]; intros lineBreak; [done|].
  cbn [scanLines]. destruct (JS.commentMatch line) as [text|] eqn:Hline.
  - split.
    + intros H.
      pose proof (scanLines_length_ge lines
                    (if negb lineBreak && (0 <? length (@nil string))
                     then alter (fun last => last +:+ " " +:+ JS.trim text)
                                (length (@nil string) - 1) []
                     else [] ++ [JS.trim text]) true false) as Hge.
      rewrite H in Hge. rewrite andb_false_r in Hge. cbn in Hge. lia.
    + intros H. apply Forall_inv in H. congruence.
  - rewrite Forall_cons. destruct (JS.blankMatch line).
    + rewrite IH. split; [by intros H|by intros [_ H]].
    + rewrite andb_false_r, IH. split; [by intros H|by intros [_ H]].
Qed.

(** X11: a member gets no comment exactly when its span holds no comment
    line: the first comment line of a span is always collected. There are
    never more paragraphs than comment lines. *)
Theorem extractNodeComments_count (wrap : string -> nat -> string) (src : string)
    (pos end_ : nat) :
  ((extractNodeComments wrap src pos end_ []).1 = [] <->
   Forall (fun line => JS.commentMatch line = None)
          (JS.splitLines (JS.slice src pos end_))) /\
  length (extractNodeComments wrap src pos end_ []).1 <=
  commentLineCount (JS.splitLines (JS.slice src pos end_)).
Proof.
  split.
  - apply scanLines_nil_iff.
  - apply (scanLines_length_le _ [] false false).
Qed.

Lemma all_app (p : ascii -> bool) (s1 s2 : string) :
  JS.all p (s1 +:+ s2) = JS.all p s1 && JS.all p s2.
Proof.
  induction s1 as [|c s1 IH]; [done|].
  rewrite sapp_cons. cbn. by rewrite IH, andb_assoc.
Qed.

Lemma all_trimStart (p : ascii -> bool) (s : string) :
  JS.all p s = true -> JS.all p (JS.trimStart s) = true.
Proof.
  induction s as [|c s IH]; [done|]. cbn. intros [Hc Hs]%andb_prop.
  destruct (JS.isWhiteSpace c); [by apply IH|]. cbn. by rewrite Hc, Hs.
Qed.

Lemma all_trimEnd (p : ascii -> bool) (s : string) :
  JS.all p s = true -> JS.all p (JS.trimEnd s) = true.
Proof.
  induction s as [|c s IH]; [done|]. cbn. intros [Hc Hs]%andb_prop.
  specialize (IH Hs). destruct (JS.trimEnd s) as [|c' t].
  - destruct (JS.isWhiteSpace c); [done|]. cbn. by rewrite Hc.
  - cbn in *. by rewrite Hc, IH.
Qed.

Lemma commentMatch_singleLine (line text : string) :
  JS.commentMatch line = Some text -> singleLine text.
Proof.
  induction line as [|c line IH]; [done|]. cbn [JS.commentMatch].
  destruct (JS.isWhiteSpace c); [done|].
  destruct c as [[] [] [] [] [] [] [] []]; try done.
  destruct line as [|c' text']; [done|].
  destruct c' as [[] [] [] [] [] [] [] []]; try done.
  destruct (JS.truthy text' && JS.all _ text') eqn:H; [|done].
  intros [= <-]. by apply andb_prop in H as [_ H].
Qed.

Lemma scanLines_singleLine (lines comments : list string) (seenComment lineBreak : bool) :
  Forall singleLine comments ->
  Forall singleLine (scanLines lines comments seenComment lineBreak).
Proof.
  revert comments seenComment lineBreak.
  induction lines as [|line lines IH]; intros comments seenComment lineBreak Hall;
    [done|].
  cbn [scanLines]. destruct (JS.commentMatch line) as [text|] eqn:Hline.
  - apply commentMatch_singleLine in Hline.
    assert (singleLine (JS.trim text)) as Htrim
      by (by apply all_trimEnd, all_trimStart).
    apply IH. destruct (negb lineBreak && (0 <? length comments)).
    + apply Forall_alter; [done|]. intros last _ Hlast.
      unfold singleLine in *. by rewrite !all_app, Hlast, Htrim.
    + apply Forall_app. split; [done|]. by constructor.
  - destruct (JS.blankMatch line); [by apply IH|].
    destruct (negb lineBreak && seenComment); [done|by apply IH].
Qed.

(** X12: no paragraph of the comments of a member holds a line feed or a
    carriage return, however many comment lines it was merged from, so the
    comment of a bullet stays on one line of the rendered text. *)
Theorem extractNodeMeta_comments_singleLine (wrap : string -> nat -> string)
    (src : string) (node : MemberNode) (field : FieldMeta) :
  extractNodeMeta wrap src node = Ok field ->
  Forall singleLine (comments field.2) /\
  singleLine (JS.Array_join " " (comments field.2)).
Proof.
  intros H. assert (Forall singleLine (comments field.2)) as Hall.
  { unfold extractNodeMeta in H.
    destruct (extractNodeTypes (m_type node)); cbn in H; [|done].
    injection H as <-. cbn. by apply scanLines_singleLine. }
  split; [done|]. unfold JS.Array_join.
  induction Hall as [|paragraph paragraphs Hp _ IH]; [done|].
  destruct paragraphs as [|paragraph' paragraphs]; [done|].
  change (singleLine (paragraph +:+ " " +:+
                      String.concat " " (paragraph' :: paragraphs))).
  unfold singleLine in *. by rewrite !all_app, Hp, IH.
Qed.

Lemma extractNodeMeta_comments_singleLine_witness :
  Forall singleLine ["first second"; "third"].
Proof.
  exact (proj1 (extractNodeMeta_comments_singleLine (fun s _ => s) commentedProperty
    (mkMemberNode (Some "x") false (Some (keywordType "StringKeyword")) 0
       (String.length commentedProperty))
    (Some "x", {| optional := false; types := [Names [Some "string"]];
             comments := ["first second"; "third"] |})
    eq_refl)).
Defined.

(** ** Lines *)

(** X13: a line is a comment line exactly when it is white space, two
    slashes and a text of at least one character without line feed and
    carriage return, and that text is what is captured: the two slashes
    alone are no comment line, and a third slash belongs to the text. *)
Theorem commentMatch_spec (line text : string) :
  JS.commentMatch line = Some text <->
  exists indent,
    line = indent +:+ "//" +:+ text /\
    JS.all JS.isWhiteSpace indent = true /\
    text ≠ "" /\ singleLine text.
Proof.
  split.
  - induction line as [|c line IH]; [done|]. cbn [JS.commentMatch].
    destruct (JS.isWhiteSpace c) eqn:Hc.
    + intros H. destruct (IH H) as (indent & -> & Hindent & Htext).
      exists (String c indent). cbn. by rewrite Hc, Hindent.
    + destruct c as [[] [] [] [] [] [] [] []]; try done.
      destruct line as [|c' text']; [done|].
      destruct c' as [[] [] [] [] [] [] [] []]; try done.
      destruct (JS.truthy text' && JS.all _ text') eqn:H; [|done].
      intros [= <-]. apply andb_prop in H as [Hne H].
      exists "". repeat split; [by apply truthy_ne|done].
  - intros (indent & -> & Hindent & Hne & Hline).
    induction indent as [|c indent IH].
    + apply truthy_ne in Hne. unfold singleLine in Hline.
      change ("" +:+ "//" +:+ text) with (String "/" (String "/" text)).
      cbn. by rewrite Hne, Hline.
    + cbn in Hindent. apply andb_prop in Hindent as [Hc Hindent].
      rewrite sapp_cons. cbn [JS.commentMatch]. rewrite Hc. by apply IH.
Qed.

Lemma commentMatch_spec_witness :
  JS.commentMatch "  /// note" = Some "/ note" /\ JS.commentMatch "  //" = None.
Proof.
  split.
  - apply (proj2 (commentMatch_spec "  /// note" "/ note")).
    exists "  ". repeat split; discriminate.
  - reflexivity.
Defined.

Lemma splitLines_LF (s : string) :
  JS.splitLines (String "010" s) = "" :: JS.splitLines s.
Proof. reflexivity. Qed.

Lemma splitLines_other (c : ascii) (s : string) :
  Ascii.eqb c "010" = false -> Ascii.eqb c "013" = false ->
  JS.splitLines (String c s) =
  match JS.splitLines s with
  | l :: ls => String c l :: ls
  | [] => [String c ""]
  end.
Proof.
  intros Hlf Hcr. cbn [JS.splitLines]. rewrite Hlf, Hcr.
  by destruct s.
Qed.

Lemma splitLines_ne (s : string) : JS.splitLines s ≠ [].
Proof.
  destruct s as [|c s]; [done|]. cbn [JS.splitLines].
  destruct (Ascii.eqb c "010"); [done|].
  destruct s as [|c' s]; [done|].
  destruct (Ascii.eqb c "013" && Ascii.eqb c' "010"); [done|].
  by destruct (JS.splitLines (String c' s)).
Qed.

Lemma splitLines_toCRLF (s : string) :
  noCR s -> JS.splitLines (toCRLF s) = JS.splitLines s.
Proof.
  unfold noCR. induction s as [|c s IH]; [done|].
  cbn [JS.all toCRLF]. intros [Hc Hs]%andb_prop. apply negb_true_iff in Hc.
  destruct (Ascii.eqb c "010") eqn:Hlf.
  - apply Ascii.eqb_eq in Hlf as ->. rewrite splitLines_LF, <- IH by done. reflexivity.
  - by rewrite !splitLines_other, IH.
Qed.

Lemma slice_all (s : string) : JS.slice s 0 (String.length s) = s.
Proof.
  unfold JS.slice. rewrite Nat.sub_0_r.
  induction s as [|c s IH]; [done|]. cbn. by rewrite IH.
Qed.

(** X14: a text without carriage return has the same lines when its line
    ends are turned into carriage return and line feed, so the comments
    scanned over the whole of it are the same. *)
Theorem extractNodeComments_CRLF (wrap : string -> nat -> string) (text : string) :
  noCR text ->
  JS.splitLines (toCRLF text) = JS.splitLines text /\
  (extractNodeComments wrap (toCRLF text) 0 (String.length (toCRLF text)) []).1 =
  (extractNodeComments wrap text 0 (String.length text) []).1.
Proof.
  intros H. split; [by apply splitLines_toCRLF|].
  unfold extractNodeComments. cbn [fst].
  by rewrite !slice_all, splitLines_toCRLF.
Qed.

Lemma extractNodeComments_CRLF_witness :
  (extractNodeComments (fun s _ => s)
     ("// a" +:+ String "013" LF +:+ "// b" +:+ String "013" LF +:+ "x: string") 0 21 []).1 =
  ["a b"].
Proof.
  etrans; [exact (proj2 (extractNodeComments_CRLF (fun s _ => s)
                    ("// a" +:+ LF +:+ "// b" +:+ LF +:+ "x: string") eq_refl))|].
  vm_compute. reflexivity.
Defined.

Lemma Array_join_cons_char (sep : string) (c : ascii) (l : string) (ls : list string) :
  JS.Array_join sep (String c l :: ls) = String c (JS.Array_join sep (l :: ls)).
Proof. unfold JS.Array_join. by destruct ls. Qed.

Lemma noLF_cons (c : ascii) (s : string) :
  noLF (String c s) <-> Ascii.eqb c "010" = false /\ noLF s.
Proof. unfold noLF. cbn [JS.all]. by rewrite andb_true_iff, negb_true_iff. Qed.

Lemma splitLines_cons_cons (c0 c : ascii) (s : string) :
  JS.splitLines (String c0 (String c s)) =
  if Ascii.eqb c0 "010" then "" :: JS.splitLines (String c s)
  else if Ascii.eqb c0 "013" && Ascii.eqb c "010" then "" :: JS.splitLines s
  else match JS.splitLines (String c s) with
       | l :: ls => String c0 l :: ls
       | [] => [String c0 ""]
       end.
Proof. reflexivity. Qed.

Lemma splitLines_lines_noLF (s : string) : Forall noLF (JS.splitLines s).
Proof.
  enough (Forall noLF (JS.splitLines s) /\
          forall c, Forall noLF (JS.splitLines (String c s))) as H by apply H.
  induction s as [|c s [IH1 IH2]].
  - split; [by repeat constructor|]. intros c. cbn [JS.splitLines].
    destruct (Ascii.eqb c "010") eqn:Hc; repeat constructor.
    by apply noLF_cons.
  - split; [apply IH2|]. intros c0. specialize (IH2 c).
    rewrite splitLines_cons_cons.
    destruct (Ascii.eqb c0 "010") eqn:Hc0; [by constructor|].
    destruct (Ascii.eqb c0 "013" && Ascii.eqb c "010") eqn:Hcr; [by constructor|].
    destruct (JS.splitLines (String c s)) as [|l ls].
    + repeat constructor. by apply noLF_cons.
    + apply Forall_cons in IH2 as [Hl Hls]. constructor; [|done].
      by apply noLF_cons.
Qed.

(** X15: no line of a text holds a line feed, there is always at least one
    line, and the lines of a text without carriage return, joined by line
    feeds, are the text again. *)
Theorem splitLines_join (text : string) :
  Forall noLF (JS.splitLines text) /\
  JS.splitLines text ≠ [] /\
  (noCR text -> JS.Array_join LF (JS.splitLines text) = text).
Proof.
  split; [apply splitLines_lines_noLF|]. split; [apply splitLines_ne|].
  unfold noCR. induction text as [|c text IH]; [done|].
  cbn [JS.all]. intros [Hc Htext]%andb_prop. apply negb_true_iff in Hc.
  specialize (IH Htext). pose proof (splitLines_ne text) as Hne.
  destruct (Ascii.eqb c "010") eqn:Hlf.
  - apply Ascii.eqb_eq in Hlf as ->. rewrite splitLines_LF.
    destruct (JS.splitLines text) as [|l ls]; [done|].
    change (JS.Array_join LF ("" :: l :: ls)) with (LF +:+ JS.Array_join LF (l :: ls)).
    by rewrite IH.
  - rewrite splitLines_other by done.
    destruct (JS.splitLines text) as [|l ls]; [done|].
    by rewrite Array_join_cons_char, IH.
Qed.

Lemma splitLines_join_witness :
  JS.Array_join LF (JS.splitLines exampleSource) = exampleSource.
Proof. exact (proj2 (proj2 (splitLines_join exampleSource)) eq_refl). Defined.

(** ** Further properties of the rendering *)

Lemma addParamsToMarkdown_cons (field : FieldMeta) (params : list FieldMeta) :
  addParamsToMarkdown (field :: params) = bullet field +:+ addParamsToMarkdown params.
Proof.
  unfold addParamsToMarkdown. cbn [foldl].
  set (step := fun (markdown : string) '(paramName, paramMeta) => _).
  assert (forall markdown ps, foldl step markdown ps = markdown +:+ foldl step "" ps)
    as Hacc.
  { intros markdown ps. revert markdown. induction ps as [|p ps IH]; intros markdown.
    - cbn. by rewrite sapp_nil_r.
    - cbn [foldl]. rewrite IH, (IH (step "" p)), <- sapp_assoc. f_equal.
      destruct p as [name [opt ts [|c cs]]]; destruct opt; cbn [step];
        cbn [optional types comments length Nat.ltb Nat.leb];
        by rewrite ?sapp_assoc, ?sapp_nil_l. }
  rewrite Hacc. f_equal.
  destruct field as [name [opt ts [|c cs]]]; destruct opt; unfold bullet, typesToken;
    cbn [step fst snd optional types comments length Nat.ltb Nat.leb];
    by rewrite ?sapp_assoc, ?sapp_nil_l.
Qed.

(** X16: every field is rendered as a bullet of its own, whatever fields
    stand before and after it, in the order of the list: the name in
    backticks, the alternatives, the mark of an optional field, and the
    paragraphs of its comment joined by spaces on a line of their own when
    there are any. *)
Theorem addParamsToMarkdown_bullets (params1 params2 : list FieldMeta) :
  addParamsToMarkdown (params1 ++ params2) =
    addParamsToMarkdown params1 +:+ addParamsToMarkdown params2 /\
  addParamsToMarkdown params1 = JS.Array_join "" (map bullet params1).
Proof.
  assert (forall ps, addParamsToMarkdown ps = JS.Array_join "" (map bullet ps)) as Hjoin.
  { induction ps as [|field ps IH]; [done|].
    rewrite addParamsToMarkdown_cons, IH. unfold JS.Array_join.
    destruct ps as [|field' ps]; [apply sapp_nil_r|reflexivity]. }
  split; [|apply Hjoin].
  induction params1 as [|field params1 IH]; [done|].
  cbn [app]. by rewrite !addParamsToMarkdown_cons, IH, sapp_assoc.
Qed.

(** X17: how the alternatives of an annotation come out in the rendered
    text. A single annotation that resolves to a name gives that name in
    bold; one that resolves to nothing gives an empty bold token. A union
    gives the names of its members in bold, in order, and the word
    undefined for a member that resolves to nothing. *)
Theorem typesToken_of_annotation (type : TypeNode) :
  exists types,
    extractNodeTypes (Some type) = Ok types /\
    typesToken types =
    match ty_types type with
    | None => "**" +:+ default "" (resolveType type) +:+ "**"
    | Some members =>
        JS.Array_join " | "
          (map (fun member => "**" +:+ default "undefined" (resolveType member) +:+ "**")
               members)
    end.
Proof.
  destruct (ty_types type) as [members|] eqn:Hmembers.
  - eexists. split; [by apply extractNodeTypes_union|].
    unfold typesToken. rewrite map_map. reflexivity.
  - eexists. split; [by apply extractNodeTypes_single|].
    unfold typesToken. cbn. by destruct (resolveType type).
Qed.
